(** * project-ralphie: the agent control loop, its tool registry and sandbox

    A shallow embedding of the JavaScript sources.  The repository holds
    several variants of one program; these are embedded, each in a module of
    its own:

    - [ToolAgent]: the tool registry [handleNativeTool] of the tool-calling
      agent, the variant whose [write_file] takes an [append] flag;
    - [Registry2]: the tool registry of the variant before it, whose
      [write_file] is described as writing or appending;
    - [CodeAgent]: the code-emission agent with its router, its summarizer,
      [executeSegment] (time-stamped temporary file, 60 s timeout), its own
      [handleNativeTool] and the control loop of [main];
    - [Index]: the first prototype, [index.js].

    Strings are sequences of 8-bit code units, and the JavaScript string
    methods the program calls are defined in [Js].  What lies outside the
    program (files, child processes, the clock, the model backend, the tool
    providers) is reached through the interface [Host]; [Sim] is a world in
    which all of it is data. *)

From Stdlib Require Import ZArith Ascii String List Bool Lia.
From Stdlib Require Import DecimalString DecimalPos DecimalZ.
From stdpp Require Import gmap strings.

(** ** JavaScript strings and values *)

Module Js.

(** [s.startsWith(sub)] *)
Fixpoint startsWith (s sub : string) {struct sub} : bool :=
  match sub with
  | EmptyString => true
  | String a sub' =>
      match s with
      | EmptyString => false
      | String b s' => if Ascii.eqb a b then startsWith s' sub' else false
      end
  end.

(** [s.includes(sub)] *)
Fixpoint includes (s sub : string) : bool :=
  startsWith s sub ||
  match s with
  | EmptyString => false
  | String _ s' => includes s' sub
  end.

(** [s.indexOf(sub)], with [None] for [-1]. *)
Fixpoint indexOf (s sub : string) : option nat :=
  if startsWith s sub then Some 0
  else match s with
       | EmptyString => None
       | String _ s' => option_map S (indexOf s' sub)
       end.

(** [s.slice(0, n)] and [s.slice(n)] for [n >= 0]. *)
Fixpoint take (n : nat) (s : string) : string :=
  match n, s with
  | S n', String c s' => String c (take n' s')
  | _, _ => EmptyString
  end.

Fixpoint drop (n : nat) (s : string) : string :=
  match n, s with
  | S n', String _ s' => drop n' s'
  | _, _ => s
  end.

(** The number of positions of [s] at which [sub] occurs (overlapping
    occurrences are all counted). *)
Fixpoint occurrences (s sub : string) : nat :=
  (if startsWith s sub then 1 else 0) +
  match s with
  | EmptyString => 0
  | String _ s' => occurrences s' sub
  end.

(** [s.split("")]: one string per code unit. *)
Fixpoint chars (s : string) : list string :=
  match s with
  | EmptyString => []
  | String c s' => String c EmptyString :: chars s'
  end.

(** [s.split(sep)] for a non-empty [sep]: cut at the first occurrence and go
    on behind it.  Every cut removes at least one code unit, so [length s]
    rounds are enough. *)
Fixpoint split_from (fuel : nat) (s sep : string) : list string :=
  match fuel with
  | O => [s]
  | S fuel' =>
      match indexOf s sep with
      | None => [s]
      | Some i =>
          take i s :: split_from fuel' (drop (i + String.length sep) s) sep
      end
  end.

Definition split (s sep : string) : list string :=
  if String.eqb sep "" then chars s else split_from (String.length s) s sep.

(** [pieces.join(sep)] *)
Definition join (pieces : list string) (sep : string) : string :=
  String.concat sep pieces.

(** White space and line terminators below U+0100. *)
Definition is_white (c : ascii) : bool :=
  let n := nat_of_ascii c in
  (Nat.leb 9 n && Nat.leb n 13) || Nat.eqb n 32 || Nat.eqb n 160.

Fixpoint trimStart (s : string) : string :=
  match s with
  | EmptyString => EmptyString
  | String c s' => if is_white c then trimStart s' else s
  end.

Fixpoint trimEnd (s : string) : string :=
  match s with
  | EmptyString => EmptyString
  | String c s' =>
      match trimEnd s' with
      | EmptyString => if is_white c then EmptyString else String c EmptyString
      | t => String c t
      end
  end.

(** [s.trim()] *)
Definition trim (s : string) : string := trimEnd (trimStart s).

Definition lower (c : ascii) : ascii :=
  let n := nat_of_ascii c in
  if (Nat.leb 65 n && Nat.leb n 90) ||
     (Nat.leb 192 n && Nat.leb n 222 && negb (Nat.eqb n 215))
  then ascii_of_nat (n + 32) else c.

(** [s.toLowerCase()] *)
Fixpoint toLowerCase (s : string) : string :=
  match s with
  | EmptyString => EmptyString
  | String c s' => String (lower c) (toLowerCase s')
  end.

(** [s.slice(start)]: a negative [start] counts from the end, and [-0] is
    [0]. *)
Definition slice (s : string) (start : Z) : string :=
  let len := Z.of_nat (String.length s) in
  let from := if (start <? 0)%Z then Z.max (len + start) 0 else Z.min start len in
  drop (Z.to_nat from) s.

(** [s.repeat(n)] *)
Fixpoint repeat (s : string) (n : nat) : string :=
  match n with
  | O => EmptyString
  | S n' => s +:+ repeat s n'
  end.

(** Values that reach the program as tool-call arguments: the scalars of
    JSON and [undefined] for a missing property.  [JNumber n] is the
    integer-valued number [n]. *)
Inductive JsValue : Type :=
| JUndefined
| JNull
| JBool (b : bool)
| JNumber (n : Z)
| JString (s : string).

Definition truthy (v : JsValue) : bool :=
  match v with
  | JUndefined | JNull => false
  | JBool b => b
  | JNumber n => negb (n =? 0)%Z
  | JString s => negb (String.eqb s "")
  end.

Definition decimal (n : Z) : string := NilZero.string_of_int (Z.to_int n).

(** [String(v)], the coercion of template literals and of the string
    methods' arguments. *)
Definition ToString (v : JsValue) : string :=
  match v with
  | JUndefined => "undefined"
  | JNull => "null"
  | JBool true => "true"
  | JBool false => "false"
  | JNumber n => decimal n
  | JString s => s
  end.

(** [a || b] *)
Definition or (a b : JsValue) : JsValue := if truthy a then a else b.

(** [s.split(sep)] with an argument of any type: [undefined] does not
    split. *)
Definition split_value (s : string) (sep : JsValue) : list string :=
  match sep with
  | JUndefined => [s]
  | _ => split s (ToString sep)
  end.

(** [pieces.join(sep)] with an argument of any type: [undefined] joins with
    a comma. *)
Definition join_value (pieces : list string) (sep : JsValue) : string :=
  match sep with
  | JUndefined => join pieces ","
  | _ => join pieces (ToString sep)
  end.

End Js.

(** ** Effects

    A JavaScript computation reads and changes the outside world (files,
    child processes, the model backend) and either completes, throws an
    exception, of which the program only ever reads [e.message], or is still
    waiting for a collaborator that does not come back. *)

Inductive Res (A : Type) : Type :=
| Ok (a : A)
| Throw (message : string)
| Pending.

Arguments Ok {A} a.
Arguments Throw {A} message.
Arguments Pending {A}.

Definition Eff (W A : Type) : Type := W -> Res A * W.

Definition ret {W A} (a : A) : Eff W A := fun w => (Ok a, w).

Definition throw {W A} (message : string) : Eff W A := fun w => (Throw message, w).

Definition bind {W A B} (m : Eff W A) (k : A -> Eff W B) : Eff W B :=
  fun w =>
    match m w with
    | (Ok a, w') => k a w'
    | (Throw e, w') => (Throw e, w')
    | (Pending, w') => (Pending, w')
    end.

(** [try { m } catch (e) { handler(e.message) }] *)
Definition try_catch {W A} (m : Eff W A) (handler : string -> Eff W A) : Eff W A :=
  fun w =>
    match m w with
    | (Throw e, w') => handler e w'
    | r => r
    end.

Notation "'let*' x ':=' m 'in' k" := (bind m (fun x => k))
  (at level 10, x pattern, m at level 100, k at level 200).

Notation "m ';;' k" := (bind m (fun _ => k))
  (at level 100, k at level 200, right associativity).

(** ** The collaborators

    [child_process.spawnSync], [fs], [path.resolve(process.cwd(), _)],
    [Date.now()], the model backend ([ollama.chat]) and the tool-provider
    clients are outside the program; [Host] is their interface. *)

Record SpawnOptions : Type := {
  shell : bool;
  timeout : option Z
}.

(** What [spawnSync] returns: [error] is [result.error.code] when
    [result.error] is set, [status] is [None] for [null] (killed by a signal
    or never started), and the output fields are [None] for [null]. *)
Record SpawnResult : Type := {
  error : option string;
  status : option Z;
  stdout : option string;
  stderr : option string
}.

Inductive Role : Type := system | user | assistant | tool.

Record ToolCall : Type := {
  fn_name : string;
  fn_arguments : gmap string Js.JsValue
}.

Record Message : Type := {
  role : Role;
  content : string;
  tool_calls : list ToolCall;
  name : option string
}.

Record ChatRequest : Type := {
  messages : list Message;
  tools : bool;
  num_ctx : option Z
}.

Class Host (W : Type) : Type := {
  (** [path.resolve(process.cwd(), p)] for a string [p] *)
  resolve : string -> string;
  (** [fs.readFileSync(p, 'utf-8')]; reading leaves the world as it is *)
  readFileSync : string -> W -> Res string;
  writeFileSync : string -> string -> Eff W unit;
  appendFileSync : string -> string -> Eff W unit;
  existsSync : string -> W -> bool;
  unlinkSync : string -> Eff W unit;
  (** [spawnSync(file, args, options)] for a non-empty string [file] *)
  spawnSync : string -> list string -> SpawnOptions -> Eff W SpawnResult;
  (** [Date.now()] *)
  now : W -> Z;
  (** [path.join(__dirname, file)] *)
  in_dirname : string -> string;
  (** [(await ollama.chat(request)).message] *)
  chat : ChatRequest -> Eff W Message;
  (** [(await clients[i].client.callTool({name, arguments})).content], each
      chunk already as [c.text || JSON.stringify(c)] *)
  callTool : nat -> string -> gmap string Js.JsValue -> Eff W (list string);
  (** the message of the [TypeError] Node raises for an argument of the
      wrong type or value *)
  invalid_arg : string -> Js.JsValue -> string
}.

(** The double quote and the line feed, for the program's template
    literals. *)
Definition dquote : string := String (ascii_of_nat 34) EmptyString.
Definition nl : string := String (ascii_of_nat 10) EmptyString.
Definition quoted (s : string) : string := dquote +:+ s +:+ dquote.

(** [args.key] *)
Definition prop (args : gmap string Js.JsValue) (key : string) : Js.JsValue :=
  default Js.JUndefined (args !! key).

(** [a || b] on values that are a string or [null]. *)
Definition or_null (a b : option string) : option string :=
  match a with
  | Some s => if String.eqb s "" then b else a
  | None => b
  end.

Section Collaborators.
Context {W : Type} `{Host W}.

Definition read (p : string) : Eff W string := fun w => (readFileSync p w, w).

Definition exists_file (p : string) : Eff W bool := fun w => (Ok (existsSync p w), w).

Definition date_now : Eff W Z := fun w => (Ok (now w), w).

(** [path.resolve(process.cwd(), v)]: every argument must be a string. *)
Definition path_resolve (v : Js.JsValue) : Eff W string :=
  match v with
  | Js.JString p => ret (resolve p)
  | _ => throw (invalid_arg "paths[1]" v)
  end.

(** [fs.writeFileSync(p, v, 'utf-8')]: the data must be a string. *)
Definition write_value (p : string) (v : Js.JsValue) : Eff W unit :=
  match v with
  | Js.JString data => writeFileSync p data
  | _ => throw (invalid_arg "data" v)
  end.

Definition append_value (p : string) (v : Js.JsValue) : Eff W unit :=
  match v with
  | Js.JString data => appendFileSync p data
  | _ => throw (invalid_arg "data" v)
  end.

(** [spawnSync(v, options)]: the command must be a non-empty string. *)
Definition spawn_value (v : Js.JsValue) (options : SpawnOptions) : Eff W SpawnResult :=
  match v with
  | Js.JString file =>
      if String.eqb file "" then throw (invalid_arg "file" v)
      else spawnSync file [] options
  | _ => throw (invalid_arg "file" v)
  end.

End Collaborators.

(** How one pass of the control loop of [main] ends: with one of its two
    [break]s, or at the end of the body, after the error branch or after the
    success branch.  [S] is the type of the loop's accumulators. *)
Inductive Exit : Type := BySentinel | ByCheck.

Inductive Outcome : Type := Failed | Succeeded.

Inductive Step (S : Type) : Type :=
| Break (by_ : Exit) (st : S)
| Again (outcome : Outcome) (st : S).

Arguments Break {S} by_ st.
Arguments Again {S} outcome st.

Record ToolDefinition : Type := {
  td_name : string;
  td_properties : list (string * string);
  td_required : list string
}.

(** ** The tool registry of the tool-calling agent *)

Module ToolAgent.

Definition nativeToolDefinitions : list ToolDefinition :=
  [ {| td_name := "read_file";
       td_properties := [("path", "string")];
       td_required := ["path"] |};
    {| td_name := "write_file";
       td_properties := [("path", "string"); ("text", "string"); ("append", "boolean")];
       td_required := ["path"; "text"] |};
    {| td_name := "search_and_replace";
       td_properties := [("path", "string"); ("search", "string"); ("replace", "string")];
       td_required := ["path"; "search"; "replace"] |};
    {| td_name := "run_terminal_command";
       td_properties := [("command", "string")];
       td_required := ["command"] |} ].

Definition NATIVE_TOOL_NAMES : list string := map td_name nativeToolDefinitions.

Section Registry.
Context {W : Type} `{Host W}.

(** The body of the [try] block.  [None] is [undefined], the value of a call
    that falls through every [if]. *)
Definition dispatch (name : string) (args : gmap string Js.JsValue)
    (fullPath : string) : Eff W (option string) :=
  if String.eqb name "read_file" then
    let* data := read fullPath in
    ret (Some data)
  else if String.eqb name "search_and_replace" then
    let* data := read fullPath in
    if negb (Js.includes data (Js.ToString (prop args "search"))) then
      ret (Some ("Error: String " +:+ quoted (Js.ToString (prop args "search"))
                 +:+ " not found."))
    else
      let newData :=
        Js.join_value (Js.split_value data (prop args "search")) (prop args "replace") in
      writeFileSync fullPath newData ;;
      ret (Some ("Successfully replaced text in " +:+ Js.ToString (prop args "path")))
  else if String.eqb name "write_file" then
    if Js.truthy (prop args "append") then
      append_value fullPath (prop args "text") ;;
      ret (Some ("Successfully appended to " +:+ Js.ToString (prop args "path")))
    else
      write_value fullPath (prop args "text") ;;
      ret (Some ("Successfully wrote to " +:+ Js.ToString (prop args "path")))
  else if String.eqb name "run_terminal_command" then
    let* result :=
      spawn_value (prop args "command") {| shell := true; timeout := Some 30000%Z |} in
    ret (or_null (or_null (stdout result) (stderr result))
                 (Some "Command executed (no output)."))
  else ret None.

Definition handleNativeTool (name : string) (args : gmap string Js.JsValue)
    : Eff W (option string) :=
  let* fullPath :=
    (if Js.truthy (prop args "path") then path_resolve (prop args "path") else ret "") in
  try_catch (dispatch name args fullPath)
    (fun message => ret (Some ("Error executing " +:+ name +:+ ": " +:+ message))).

End Registry.

End ToolAgent.

(** ** The tool registry of the variant before

    Its tool definition describes [write_file] as "Write or append text to a
    file", and the handler's comment says that both are handled. *)

Module Registry2.

Section Registry.
Context {W : Type} `{Host W}.

(** [path.resolve(v)]: the argument must be a string. *)
Definition path_resolve (v : Js.JsValue) : Eff W string :=
  match v with
  | Js.JString p => ret (resolve p)
  | _ => throw (invalid_arg "paths[0]" v)
  end.

Definition dispatch (name : string) (args : gmap string Js.JsValue)
    (fullPath : string) : Eff W (option string) :=
  if String.eqb name "read_file" then
    let* data := read fullPath in
    ret (Some data)
  else if String.eqb name "search_and_replace" || String.eqb name "find_and_replace" then
    let* data := read fullPath in
    if negb (Js.includes data (Js.ToString (prop args "search"))) then
      ret (Some ("Error: String " +:+ quoted (Js.ToString (prop args "search"))
                 +:+ " not found."))
    else
      let newData :=
        Js.join_value (Js.split_value data (prop args "search")) (prop args "replace") in
      writeFileSync fullPath newData ;;
      ret (Some ("Successfully replaced text in " +:+ Js.ToString (prop args "path")))
  else if String.eqb name "write_file" then
    write_value fullPath
      (Js.or (Js.or (prop args "text") (prop args "data")) (prop args "newData")) ;;
    ret (Some ("Successfully wrote to " +:+ Js.ToString (prop args "path")))
  else if String.eqb name "run_terminal_command" then
    let* result :=
      spawn_value (prop args "command") {| shell := true; timeout := None |} in
    ret (or_null (or_null (stdout result) (stderr result))
                 (Some "Command executed with no output."))
  else ret None.

Definition handleNativeTool (name : string) (args : gmap string Js.JsValue)
    : Eff W (option string) :=
  let* fullPath :=
    (if Js.truthy (prop args "path") then path_resolve (prop args "path") else ret "") in
  try_catch (dispatch name args fullPath)
    (fun message => ret (Some ("Error executing " +:+ name +:+ ": " +:+ message))).

End Registry.

End Registry2.

(** ** The code-emission agent *)

Module CodeAgent.

Definition nativeToolDefinitions : list ToolDefinition :=
  [ {| td_name := "read_file";
       td_properties := [("path", "string")];
       td_required := ["path"] |};
    {| td_name := "write_file";
       td_properties := [("path", "string"); ("text", "string")];
       td_required := ["path"; "text"] |};
    {| td_name := "search_and_replace";
       td_properties := [("path", "string"); ("search", "string"); ("replace", "string")];
       td_required := ["path"; "search"; "replace"] |};
    {| td_name := "run_terminal_command";
       td_properties := [("command", "string")];
       td_required := ["command"] |} ].

Definition NATIVE_TOOL_NAMES : list string := map td_name nativeToolDefinitions.

(** [{ error, log }], the result of [executeSegment]; [error] is kept as its
    truth value. *)
Record ExecResult : Type := {
  exec_error : bool;
  log : option string
}.

(** [clients[i]] is [{ client, toolNames }]; the client is its index. *)
Record McpClient : Type := {
  client : nat;
  toolNames : list string
}.

Record Options : Type := {
  contextLength : Z;
  clients : list McpClient
}.

(** The accumulators of [main]; [errorLog] is [None] when it holds
    [null]. *)
Record LoopState : Type := {
  progressLog : string;
  errorLog : option string;
  projectStateSummary : string
}.

Inductive Route : Type := CHAT | ACTION.

Definition systemPromptRouter : string :=
  "You are a router. Determine if the user request is a " +:+ quoted "CHAT" +:+
  " (a question, greeting, or explanation request, etc) or an " +:+ quoted "ACTION" +:+
  " (such as requires writing code, running commands, or multi-step execution). Respond ONLY with the word "
  +:+ quoted "CHAT" +:+ " or " +:+ quoted "ACTION" +:+ ".".

Definition systemPromptGenerate : string :=
  "You are a code generator. Output only the raw next Node.js code segment without any codeblocks, markdown, formatting, or wrappers. For shell commands or other languages (like Python), use Node.js child_process to execute them directly without creating files or running code in shell. That is to say, create or execute code files unless absolutely needed for the project - such as if the user asks you to make or modify some code. If the project is complete, output only "
  +:+ quoted "PROJECT_DONE" +:+
  ". Do not include any other text, explanations, thoughts, speech, codeblocks, or markdown. Do not create anything that may make a feedback loop stuck, such as a server, launching GUI apps, or a while true loop without a proper breaking functionality. If you test something to prevent bugs, please execute it for 60 seconds, quit if still open, and read error output - fixing bugs according to said error output.".

Definition systemPromptCheck : string :=
  "You are a completion checker. Respond only with " +:+ quoted "yes" +:+ " or " +:+
  quoted "no" +:+
  " to whether the project is complete. No other text, explanations, thoughts, speech, codeblocks, or markdown.".

Definition projectStateSummarySystem : string :=
  "You are a project progress summarization bot. You create summaries for projects - showing what you've learned, the errors, and what needs to be done. Use plain text. Output ONLY the new summary, NOTHNG ELSE.".

Definition says (r : Role) (text : string) : Message :=
  {| role := r; content := text; tool_calls := []; name := None |}.

(** [Math.round((Number(contextLength) / 6) / 2)]: halves round up. *)
Definition sliceLen (contextLength : Z) : Z := (contextLength + 6) / 12.

(** [routeResponse.message.content.includes("ACTION")] *)
Definition isAction (routeResponse : string) : bool :=
  Js.includes routeResponse "ACTION".

Definition classify (routeResponse : string) : Route :=
  if isAction routeResponse then ACTION else CHAT.

Definition routeRequest (currentTask : string) : ChatRequest :=
  {| messages := [says system systemPromptRouter; says user currentTask];
     tools := false;
     num_ctx := None |}.

Definition string_in (x : string) (l : list string) : bool :=
  existsb (String.eqb x) l.

Section Agent.
Context {W : Type} `{Host W}.

Definition dispatch (name : string) (args : gmap string Js.JsValue)
    (fullPath : string) : Eff W (option string) :=
  if String.eqb name "read_file" then
    let* data := read fullPath in
    ret (Some data)
  else if String.eqb name "search_and_replace" || String.eqb name "find_and_replace" then
    let* data := read fullPath in
    if negb (Js.includes data (Js.ToString (prop args "search"))) then
      ret (Some ("Error: String " +:+ quoted (Js.ToString (prop args "search"))
                 +:+ " not found."))
    else
      let newData :=
        Js.join_value (Js.split_value data (prop args "search")) (prop args "replace") in
      writeFileSync fullPath newData ;;
      ret (Some ("Successfully replaced text in " +:+ Js.ToString (prop args "path")))
  else if String.eqb name "write_file" then
    write_value fullPath
      (Js.or (Js.or (prop args "text") (prop args "data")) (prop args "newData")) ;;
    ret (Some ("Successfully wrote to " +:+ Js.ToString (prop args "path")))
  else if String.eqb name "run_terminal_command" then
    let* result :=
      spawn_value (prop args "command") {| shell := true; timeout := Some 30000%Z |} in
    ret (or_null (or_null (stdout result) (stderr result))
                 (Some "Command executed (no output)."))
  else ret None.

Definition handleNativeTool (name : string) (args : gmap string Js.JsValue)
    : Eff W (option string) :=
  let* fullPath :=
    (if Js.truthy (prop args "path") then path_resolve (prop args "path") else ret "") in
  try_catch (dispatch name args fullPath)
    (fun message => ret (Some ("Error executing " +:+ name +:+ ": " +:+ message))).

(** [path.join(process.cwd(), `temp_exec_${Date.now()}.js`)] *)
Definition tempFile (timestamp : Z) : string :=
  resolve ("temp_exec_" +:+ Js.decimal timestamp +:+ ".js").

Definition executeSegment (segment : string) : Eff W ExecResult :=
  let* timestamp := date_now in
  writeFileSync (tempFile timestamp) segment ;;
  let* result :=
    spawnSync "node" [tempFile timestamp] {| shell := false; timeout := Some 60000%Z |} in
  let* present := exists_file (tempFile timestamp) in
  (if present : bool then unlinkSync (tempFile timestamp) else ret tt) ;;
  if bool_decide (error result = Some "ETIMEDOUT") then
    ret {| exec_error := true; log := Some "Execution timed out (60s limit)." |}
  else
    ret {| exec_error :=
             bool_decide (error result <> None) || negb (bool_decide (status result = Some 0%Z));
           log := or_null (stderr result) (stdout result) |}.

(** One tool call of the assistant's message: dispatch it and push the
    [tool] message. *)
Definition call_tool (opts : Options) (call : ToolCall) : Eff W Message :=
  let* toolResult :=
    (if string_in (fn_name call) NATIVE_TOOL_NAMES then
       handleNativeTool (fn_name call) (fn_arguments call)
     else
       match find (fun c => string_in (fn_name call) (toolNames c)) (clients opts) with
       | Some target =>
           let* chunks := callTool (client target) (fn_name call) (fn_arguments call) in
           ret (Some (Js.join chunks nl))
       | None => ret None
       end) in
  ret {| role := tool;
         content := default "Tool error" (or_null toolResult (Some "Tool error"));
         tool_calls := [];
         name := Some (fn_name call) |}.

Fixpoint call_tools (opts : Options) (calls : list ToolCall) (msgs : list Message)
    : Eff W (list Message) :=
  match calls with
  | [] => ret msgs
  | call :: rest =>
      let* reply := call_tool opts call in
      call_tools opts rest (msgs ++ [reply])
  end.

(** The generation turn: the innermost [while (true)].  The source puts no
    bound on its rounds; [rounds] is how many the run is observed for. *)
Fixpoint generate (rounds : nat) (opts : Options) (msgs : list Message) : Eff W string :=
  match rounds with
  | O => fun w => (Pending, w)
  | S rounds' =>
      let* message :=
        chat {| messages := msgs; tools := true; num_ctx := Some (contextLength opts) |} in
      if (0 <? length (tool_calls message))%nat then
        let* msgs' := call_tools opts (tool_calls message) (msgs ++ [message]) in
        generate rounds' opts msgs'
      else ret (Js.trim (content message))
  end.

(** [errorLog.slice(start)]; on [null] the property access throws. *)
Definition slice_log (errorLog : option string) (start : Z) : Eff W string :=
  match errorLog with
  | Some text => ret (Js.slice text start)
  | None => throw "Cannot read properties of null (reading 'slice')"
  end.

Definition truthy_log (errorLog : option string) : bool :=
  match errorLog with
  | Some text => negb (String.eqb text "")
  | None => false
  end.

Definition show_log (l : option string) : string := default "null" l.

Definition summarizePrompt (opts : Options) (st : LoopState) (errors : string) : string :=
  "History: " +:+ Js.slice (progressLog st) (- sliceLen (contextLength opts)) +:+ nl +:+
  "Errors: " +:+ errors +:+ nl +:+
  "Summary: " +:+ projectStateSummary st +:+ nl +:+ "Update summary.".

Definition summarizeRequest (opts : Options) (st : LoopState) (errors : string)
    : ChatRequest :=
  {| messages := [says system projectStateSummarySystem;
                  says user (summarizePrompt opts st errors)];
     tools := false;
     num_ctx := Some (contextLength opts) |}.

(** [projectStateSummary = summaryResponse.message.content.trim()] *)
Definition store_summary (st : LoopState) (summaryResponse : Message) : LoopState :=
  {| progressLog := progressLog st;
     errorLog := errorLog st;
     projectStateSummary := Js.trim (content summaryResponse) |}.

(** The summarize step: the stored summary is the trimmed reply. *)
Definition summarize (opts : Options) (st : LoopState) : Eff W LoopState :=
  let* errors := slice_log (errorLog st) (- sliceLen (contextLength opts)) in
  let* summaryResponse := chat (summarizeRequest opts st errors) in
  ret (store_summary st summaryResponse).

Definition fullPrompt (currentTask : string) (st : LoopState) : string :=
  "Task: " +:+ currentTask +:+ nl +:+
  "Summary: " +:+ projectStateSummary st +:+ nl +:+
  (if truthy_log (errorLog st) then "FIX ERROR: " +:+ show_log (errorLog st)
   else "Generate next Node.js segment.").

Definition checkPrompt (currentTask : string) (st : LoopState) : string :=
  "Task: " +:+ currentTask +:+ nl +:+ "Log: " +:+ progressLog st +:+ nl +:+ "Done?".

(** The error branch: [errorLog = execResult.log]. *)
Definition on_error (st : LoopState) (execResult : ExecResult) : LoopState :=
  {| progressLog := progressLog st;
     errorLog := log execResult;
     projectStateSummary := projectStateSummary st |}.

(** The success branch: the segment and its output are appended to
    [progressLog], and [errorLog = '']. *)
Definition on_success (st : LoopState) (segment : string) (execResult : ExecResult)
    : LoopState :=
  {| progressLog :=
       progressLog st +:+ nl +:+ "Code: " +:+ segment +:+ nl +:+
       "Output: " +:+ show_log (log execResult);
     errorLog := Some "";
     projectStateSummary := projectStateSummary st |}.

Definition generateRequest (currentTask : string) (st : LoopState) : list Message :=
  [says system systemPromptGenerate; says user (fullPrompt currentTask st)].

Definition checkRequest (currentTask : string) (st : LoopState) : ChatRequest :=
  {| messages := [says system systemPromptCheck; says user (checkPrompt currentTask st)];
     tools := false;
     num_ctx := None |}.

(** [checkResponse.message.content.toLowerCase().includes('yes')] *)
Definition says_yes (checkResponse : Message) : bool :=
  Js.includes (Js.toLowerCase (content checkResponse)) "yes".

(** One pass of the control loop of [main]. *)
Definition outer_iteration (rounds : nat) (opts : Options) (currentTask : string)
    (st0 : LoopState) : Eff W (Step LoopState) :=
  let* st := summarize opts st0 in
  let* segment := generate rounds opts (generateRequest currentTask st) in
  if Js.includes segment "PROJECT_DONE" then ret (Break BySentinel st)
  else
    let* execResult := executeSegment segment in
    if exec_error execResult then ret (Again Failed (on_error st execResult))
    else
      let st' := on_success st segment execResult in
      let* checkResponse := chat (checkRequest currentTask st') in
      if says_yes checkResponse then ret (Break ByCheck st')
      else ret (Again Succeeded st').

(** The control loop, observed for [passes] passes. *)
Fixpoint control_loop (passes rounds : nat) (opts : Options) (currentTask : string)
    (st : LoopState) : Eff W (Exit * LoopState) :=
  match passes with
  | O => fun w => (Pending, w)
  | S passes' =>
      let* step := outer_iteration rounds opts currentTask st in
      match step with
      | Break by_ st' => ret (by_, st')
      | Again _ st' => control_loop passes' rounds opts currentTask st'
      end
  end.

(** The points between two passes of the control loop entered in state
    [st0] and world [w0]: the state and world there, and how the pass before
    ended ([None] before the first pass). *)
Inductive between (rounds : nat) (opts : Options) (currentTask : string)
    (st0 : LoopState) (w0 : W) : option Outcome -> LoopState -> W -> Prop :=
| between_entry : between rounds opts currentTask st0 w0 None st0 w0
| between_pass last st w outcome st' w' :
    between rounds opts currentTask st0 w0 last st w ->
    outer_iteration rounds opts currentTask st w = (Ok (Again outcome st'), w') ->
    between rounds opts currentTask st0 w0 (Some outcome) st' w'.

(** The router: one backend call, classified by keyword. *)
Definition route (currentTask : string) : Eff W Route :=
  let* routeResponse := chat (routeRequest currentTask) in
  ret (classify (content routeResponse)).

(** One task of [main]: a chat reply, or the control loop started with an
    empty [errorLog]. *)
Definition run_task (passes rounds : nat) (opts : Options) (currentTask : string)
    (progress summary : string) : Eff W (option (Exit * LoopState)) :=
  let* r := route currentTask in
  match r with
  | CHAT =>
      chat {| messages := [says system "You are a helpful assistant named Sammy.";
                           says user currentTask];
              tools := false;
              num_ctx := None |} ;;
      ret None
  | ACTION =>
      let* final :=
        control_loop passes rounds opts currentTask
          {| progressLog := progress; errorLog := Some ""; projectStateSummary := summary |} in
      ret (Some final)
  end.

End Agent.

End CodeAgent.

(** ** The first prototype *)

Module Index.

Record ExecResult : Type := {
  exec_error : bool;
  log : option string
}.

Record LoopState : Type := {
  progressLog : string;
  errorLog : option string
}.

Definition show_log (l : option string) : string := default "null" l.

Section Agent.
Context {W : Type} `{Host W}.

Definition executeSegment (segment : string) : Eff W ExecResult :=
  let tempFile := in_dirname "temp.js" in
  writeFileSync tempFile segment ;;
  let* result := spawnSync "node" [tempFile] {| shell := false; timeout := None |} in
  unlinkSync tempFile ;;
  if bool_decide (error result <> None) || negb (bool_decide (status result = Some 0%Z)) then
    ret {| exec_error := true; log := or_null (stderr result) (stdout result) |}
  else
    ret {| exec_error := false; log := stdout result |}.

Definition fullPrompt (mainPrompt : string) (st : LoopState) : string :=
  mainPrompt +:+ nl +:+ nl +:+ "Progress Log: " +:+ progressLog st +:+ nl +:+ nl +:+
  "Error Log (if any): " +:+ show_log (errorLog st) +:+ nl +:+ nl +:+
  "Generate the next code segment or command. If incomplete, continue. If done, say "
  +:+ quoted "PROJECT_DONE" +:+ ".".

Definition checkPrompt (mainPrompt : string) (st : LoopState) (output : option string)
    : string :=
  mainPrompt +:+ nl +:+ nl +:+ "Progress Log: " +:+ progressLog st +:+ nl +:+ nl +:+
  "Last segment executed successfully. Output: " +:+ show_log output +:+ nl +:+ nl +:+
  "Is the project complete? Respond with " +:+ quoted "yes" +:+ " or " +:+ quoted "no" +:+ ".".

Definition systemPromptGenerate : string :=
  "You are a code generator. Output only the raw next Node.js code segment without any codeblocks, markdown, formatting, or wrappers. For shell commands or other languages (like Python), use Node.js child_process to execute them directly without creating files or running code in shell. If the project is complete, output only "
  +:+ quoted "PROJECT_DONE" +:+
  ". Do not include any other text, explanations, thoughts, speech, codeblocks, or markdown.".

Definition systemPromptCheck : string :=
  "You are a completion checker. Respond only with " +:+ quoted "yes" +:+ " or " +:+
  quoted "no" +:+
  " to whether the project is complete. No other text, explanations, thoughts, speech, codeblocks, or markdown.".

Definition says (r : Role) (text : string) : Message :=
  {| role := r; content := text; tool_calls := []; name := None |}.

(** One pass of the [while (true)] of [main]. *)
Definition outer_iteration (contextLength : Z) (mainPrompt : string) (st : LoopState)
    : Eff W (Step LoopState) :=
  let* response :=
    chat {| messages := [says system systemPromptGenerate;
                         says user (fullPrompt mainPrompt st)];
            tools := false;
            num_ctx := Some contextLength |} in
  let segment := Js.trim (content response) in
  if String.eqb segment "PROJECT_DONE" then ret (Break BySentinel st)
  else
    let* execResult := executeSegment segment in
    if exec_error execResult then
      ret (Again Failed {| progressLog := progressLog st; errorLog := log execResult |})
    else
      let st' :=
        {| progressLog :=
             progressLog st +:+ nl +:+ "Successful segment: " +:+ segment +:+ nl +:+
             "Output: " +:+ show_log (log execResult);
           errorLog := errorLog st |} in
      let* checkResponse :=
        chat {| messages := [says system systemPromptCheck;
                             says user (checkPrompt mainPrompt st' (log execResult))];
                tools := false;
                num_ctx := Some contextLength |} in
      let isComplete := Js.toLowerCase (Js.trim (content checkResponse)) in
      if String.eqb isComplete "yes" then ret (Break ByCheck st')
      else ret (Again Succeeded {| progressLog := progressLog st'; errorLog := Some "" |}).

Fixpoint control_loop (passes : nat) (contextLength : Z) (mainPrompt : string)
    (st : LoopState) : Eff W (Exit * LoopState) :=
  match passes with
  | O => fun w => (Pending, w)
  | S passes' =>
      let* step := outer_iteration contextLength mainPrompt st in
      match step with
      | Break by_ st' => ret (by_, st')
      | Again _ st' => control_loop passes' contextLength mainPrompt st'
      end
  end.

End Agent.

End Index.

(** ** A scripted world

    An instance of [Host] in which everything outside the program is data:
    the files are a finite map from resolved path to content, the backend
    answers from a list, and every child process is described by how long it
    runs, whether it runs on when it is sent SIGTERM, what it returns and
    what it does to the files.  The root, the working directory [/work] and
    the directory of the program [/opt/ralphie] are there; any other
    directory [d] is there when the map has the entry [d/].  There are no
    links, and a path that is written is not the path of a directory. *)

Record Proc : Type := {
  duration : option Z;
  stubborn : bool;
  returns : SpawnResult;
  effect : gmap string string -> gmap string string
}.

Record Sim : Type := {
  files : gmap string string;
  backend : list (Res Message);
  procs : list Proc;
  clock : Z
}.

Module SimHost.

Definition ENOENT (p : string) : string :=
  "ENOENT: no such file or directory, open '" +:+ p +:+ "'".

Definition with_files (w : Sim) (fs : gmap string string) : Sim :=
  {| files := fs; backend := backend w; procs := procs w; clock := clock w |}.

(** The segments of a path from left to right: empty segments and [.] are
    passed over, [..] takes back the segment before it.  [stack] holds the
    segments kept, the last one first. *)
Fixpoint walk (segments stack : list string) : list string :=
  match segments with
  | [] => stack
  | segment :: rest =>
      if String.eqb segment "" || String.eqb segment "." then walk rest stack
      else if String.eqb segment ".." then walk rest (tl stack)
      else walk rest (segment :: stack)
  end.

Definition normalize (p : string) : string :=
  "/" +:+ Js.join (rev (walk (Js.split p "/") [])) "/".

(** [path.resolve(process.cwd(), p)] on POSIX, in the working directory
    [/work]. *)
Definition sim_resolve (p : string) : string :=
  normalize (if Js.startsWith p "/" then p else "/work/" +:+ p).

(** [path.dirname(p)] of a resolved path; the root is the empty string. *)
Definition dirname (p : string) : string :=
  Js.join (removelast (Js.split p "/")) "/".

Definition has_dir (fs : gmap string string) (d : string) : bool :=
  existsb (String.eqb d) [""; "/work"; "/opt"; "/opt/ralphie"] ||
  bool_decide (is_Some (fs !! (d +:+ "/"))).

(** A file can be written when it is there already or its directory is;
    otherwise the write fails with [ENOENT]. *)
Definition writable (w : Sim) (p : string) : bool :=
  negb (String.eqb p "") &&
  (bool_decide (is_Some (files w !! p)) || has_dir (files w) (dirname p)).

Definition sim_read (p : string) (w : Sim) : Res string :=
  match files w !! p with
  | Some data => Ok data
  | None => Throw (ENOENT p)
  end.

Definition sim_write (p data : string) : Eff Sim unit :=
  fun w =>
    if writable w p then (Ok tt, with_files w (<[p := data]> (files w)))
    else (Throw (ENOENT p), w).

Definition sim_append (p data : string) : Eff Sim unit :=
  fun w =>
    if writable w p
    then (Ok tt, with_files w (<[p := default "" (files w !! p) +:+ data]> (files w)))
    else (Throw (ENOENT p), w).

Definition sim_exists (p : string) (w : Sim) : bool :=
  bool_decide (is_Some (files w !! p)).

Definition sim_unlink (p : string) : Eff Sim unit :=
  fun w =>
    match files w !! p with
    | Some _ => (Ok tt, with_files w (delete p (files w)))
    | None => (Throw (ENOENT p), w)
    end.

(** The child of a world whose script is used up: it exits at once with
    status 0 and no output. *)
Definition quiet : Proc :=
  {| duration := Some 0%Z;
     stubborn := false;
     returns := {| error := None; status := Some 0%Z; stdout := Some ""; stderr := Some "" |};
     effect := fun fs => fs |}.

(** A child that outlives the timeout is sent SIGTERM and reported with
    [ETIMEDOUT].  One that dies of the signal has no status; a stubborn one
    is waited for until it exits by itself, if it ever does.  Without a
    timeout a child that never exits is waited for forever.  What the child
    does is the script's: it does not depend on the file it is started
    from. *)
Definition killed (p : Proc) : SpawnResult :=
  {| error := Some "ETIMEDOUT"; status := None;
     stdout := stdout (returns p); stderr := stderr (returns p) |}.

Definition late (p : Proc) : SpawnResult :=
  {| error := Some "ETIMEDOUT"; status := status (returns p);
     stdout := stdout (returns p); stderr := stderr (returns p) |}.

Definition sim_spawn (file : string) (args : list string) (options : SpawnOptions)
    : Eff Sim SpawnResult :=
  fun w =>
    let p := hd quiet (procs w) in
    let w' := {| files := effect p (files w); backend := backend w;
                 procs := tl (procs w); clock := (clock w + 1)%Z |} in
    match timeout options, duration p with
    | Some limit, Some d =>
        if (d <=? limit)%Z then (Ok (returns p), w')
        else if stubborn p then (Ok (late p), w')
        else (Ok (killed p), w')
    | Some _, None => if stubborn p then (Pending, w') else (Ok (killed p), w')
    | None, Some _ => (Ok (returns p), w')
    | None, None => (Pending, w')
    end.

Definition sim_chat (request : ChatRequest) : Eff Sim Message :=
  fun w =>
    match backend w with
    | [] => (Pending, w)
    | answer :: rest =>
        (answer, {| files := files w; backend := rest; procs := procs w; clock := clock w |})
    end.

Definition sim_invalid_arg (argument : string) (v : Js.JsValue) : string :=
  "The " +:+ dquote +:+ argument +:+ dquote +:+
  " argument must be of type string. Received " +:+ Js.ToString v.

#[global] Instance sim_host : Host Sim := {|
  resolve := sim_resolve;
  readFileSync := sim_read;
  writeFileSync := sim_write;
  appendFileSync := sim_append;
  existsSync := sim_exists;
  unlinkSync := sim_unlink;
  spawnSync := sim_spawn;
  now := clock;
  in_dirname := fun file => "/opt/ralphie/" +:+ file;
  chat := sim_chat;
  callTool := fun _ _ _ => throw "Not connected";
  invalid_arg := sim_invalid_arg
|}.

End SimHost.

(** ** Sample worlds and tool calls *)

Module Demo.

Definition world (fs : gmap string string) : Sim :=
  {| files := fs; backend := []; procs := []; clock := 1700000000000%Z |}.

Definition replace_call (p search replacement : string) : gmap string Js.JsValue :=
  {[ "path" := Js.JString p; "search" := Js.JString search;
     "replace" := Js.JString replacement ]}.

Definition append_call (p text : string) : gmap string Js.JsValue :=
  {[ "path" := Js.JString p; "text" := Js.JString text; "append" := Js.JBool true ]}.

(** A tool call whose [path] is the number 5. *)
Definition numeric_path : gmap string Js.JsValue := {[ "path" := Js.JNumber 5 ]}.

(** The backend answers with the given texts, one per call, and the child
    processes are the given ones. *)
Definition scripted (answers : list string) (children : list Proc) : Sim :=
  {| files := ∅;
     backend := map (fun text => Ok (CodeAgent.says assistant text)) answers;
     procs := children;
     clock := 1700000000000%Z |}.

(** A child that prints [out] and exits with status 0 after 40 ms. *)
Definition prints (out : string) : Proc :=
  {| duration := Some 40%Z;
     stubborn := false;
     returns := {| error := None; status := Some 0%Z; stdout := Some out; stderr := Some "" |};
     effect := fun fs => fs |}.

(** A child that writes [err] to its standard error and exits with
    status 1. *)
Definition fails (err : string) : Proc :=
  {| duration := Some 40%Z;
     stubborn := false;
     returns := {| error := None; status := Some 1%Z; stdout := Some ""; stderr := Some err |};
     effect := fun fs => fs |}.

(** A child that never exits, and touches no file. *)
Definition spins : Proc :=
  {| duration := None;
     stubborn := false;
     returns := {| error := None; status := None; stdout := Some ""; stderr := Some "" |};
     effect := fun fs => fs |}.

(** A child that never exits, and deletes every file while it runs. *)
Definition hangs : Proc :=
  {| duration := None;
     stubborn := false;
     returns := {| error := None; status := None; stdout := Some "tick"; stderr := Some "" |};
     effect := fun _ => ∅ |}.

Definition options : CodeAgent.Options :=
  {| CodeAgent.contextLength := 8192; CodeAgent.clients := [] |}.

(** The accumulators at the entry of the control loop, and with an error
    pending from the pass before. *)
Definition fresh : CodeAgent.LoopState :=
  {| CodeAgent.progressLog := "";
     CodeAgent.errorLog := Some "";
     CodeAgent.projectStateSummary := "No active task." |}.





(** A backend that first answers the summarizer and then asks for
    [read_file] with the numeric path. *)
Definition asks_numeric_path : Sim :=
  {| files := ∅;
     backend :=
       [ Ok (CodeAgent.says assistant "Nothing yet.");
         Ok {| role := assistant; content := "";
               tool_calls := [ {| fn_name := "read_file"; fn_arguments := numeric_path |} ];
               name := None |} ];
     procs := [];
     clock := 1700000000000%Z |}.

(** A progress log ten times as long as the slice of it that is summarized,
    and a backend whose summary is longer than the context budget. *)
Definition long_progress : CodeAgent.LoopState :=
  {| CodeAgent.progressLog := Js.repeat "p" (Z.to_nat 6830);
     CodeAgent.errorLog := Some "";
     CodeAgent.projectStateSummary := "No active task." |}.

Definition verbose_backend : Sim := scripted [Js.repeat "x" (Z.to_nat 9000)] [].

End Demo.

(** ** The command line

    [parseOptions] of the code-emission agent, on [process.argv.slice(2)].
    A property that is read beyond the end of the array is [undefined],
    here [None]; [NaN] is [None] as well. *)

Module Cli.

Definition is_digit (c : ascii) : bool :=
  let n := nat_of_ascii c in Nat.leb 48 n && Nat.leb n 57.

(** The longest prefix of decimal digits. *)
Fixpoint digit_prefix (s : string) : string :=
  match s with
  | EmptyString => EmptyString
  | String c s' => if is_digit c then String c (digit_prefix s') else EmptyString
  end.

(** The sign that [parseInt] reads off, and what follows it. *)
Definition strip_sign (s : string) : bool * string :=
  match s with
  | EmptyString => (false, EmptyString)
  | String c s' =>
      if Ascii.eqb c "-" then (true, s')
      else if Ascii.eqb c "+" then (false, s')
      else (false, s)
  end.

(** [parseInt(s, 10)]: leading white space is skipped, a sign is read, and
    the longest prefix of digits is the value; without a digit the result is
    [NaN].  The value is the integer the digits denote (which the number
    holds exactly up to 2^53). *)
Definition parseInt (s : string) : option Z :=
  let (negative, rest) := strip_sign (Js.trimStart s) in
  match digit_prefix rest with
  | EmptyString => None
  | digits =>
      match NilEmpty.uint_of_string digits with
      | Some d => Some (if negative : bool then (- Z.of_uint d)%Z else Z.of_uint d)
      | None => None
      end
  end.

(** [parseInt(v, 10)] for an array element that may be [undefined]. *)
Definition parseInt_element (v : option string) : option Z :=
  parseInt (default "undefined" v).

Record ParsedOptions : Type := {
  args : list string;
  model : option string;
  host : option string;
  contextLength : option Z;
  mcpServers : list (option string)
}.

(** [args.splice(i, 2)] *)
Definition splice2 (i : nat) (l : list string) : list string :=
  take i l ++ drop (i + 2) l.

(** The state of [parseOptions] before the loop. *)
Definition initial (argv : list string) : ParsedOptions :=
  {| args := argv;
     model := Some "ministral-3:8b";
     host := Some "http://localhost:11434";
     contextLength := Some 42000%Z;
     mcpServers := [] |}.

Definition is_flag (a : string) : bool :=
  String.eqb a "--model" || String.eqb a "--host" ||
  String.eqb a "--context-length" || String.eqb a "--mcp".

(** The body of the [while] loop, entered with [i < args.length]. *)
Definition body (i : nat) (o : ParsedOptions) : nat * ParsedOptions :=
  match args o !! i with
  | None => (i, o)
  | Some a =>
      if String.eqb a "--model" then
        (i, {| args := splice2 i (args o); model := args o !! (i + 1); host := host o;
               contextLength := contextLength o; mcpServers := mcpServers o |})
      else if String.eqb a "--host" then
        (i, {| args := splice2 i (args o); model := model o; host := args o !! (i + 1);
               contextLength := contextLength o; mcpServers := mcpServers o |})
      else if String.eqb a "--context-length" then
        (i, {| args := splice2 i (args o); model := model o; host := host o;
               contextLength := parseInt_element (args o !! (i + 1));
               mcpServers := mcpServers o |})
      else if String.eqb a "--mcp" then
        (i, {| args := splice2 i (args o); model := model o; host := host o;
               contextLength := contextLength o;
               mcpServers := mcpServers o ++ [args o !! (i + 1)] |})
      else (i + 1, o)
  end.

(** [while (i < args.length) { ... }], for at most [turns] turns. *)
Fixpoint loop (turns : nat) (i : nat) (o : ParsedOptions) : ParsedOptions :=
  match turns with
  | O => o
  | S turns' =>
      if (i <? length (args o))%nat
      then let (i', o') := body i o in loop turns' i' o'
      else o
  end.

(** Every turn either removes an element or moves [i] on, so the loop is
    over after [argv.length] turns. *)
Definition parseOptions (argv : list string) : ParsedOptions :=
  loop (length argv) 0 (initial argv).

(** What a flag does with its value; [None] for a word that is no flag. *)
Definition set_flag (a : string) (v : option string) (o : ParsedOptions)
    : option ParsedOptions :=
  if String.eqb a "--model" then
    Some {| args := args o; model := v; host := host o;
            contextLength := contextLength o; mcpServers := mcpServers o |}
  else if String.eqb a "--host" then
    Some {| args := args o; model := model o; host := v;
            contextLength := contextLength o; mcpServers := mcpServers o |}
  else if String.eqb a "--context-length" then
    Some {| args := args o; model := model o; host := host o;
            contextLength := parseInt_element v; mcpServers := mcpServers o |}
  else if String.eqb a "--mcp" then
    Some {| args := args o; model := model o; host := host o;
            contextLength := contextLength o; mcpServers := mcpServers o ++ [v] |}
  else None.

Definition keep (a : string) (o : ParsedOptions) : ParsedOptions :=
  {| args := args o ++ [a]; model := model o; host := host o;
     contextLength := contextLength o; mcpServers := mcpServers o |}.

(** The same reading of the command line as one scan from left to right:
    a flag takes the next word, whatever it is, as its value, and any other
    word is kept.  [args o] holds the words kept so far. *)
Fixpoint scan (todo : list string) (o : ParsedOptions) : ParsedOptions :=
  match todo with
  | [] => o
  | a :: rest =>
      match set_flag a (head rest) o with
      | Some o' =>
          match rest with
          | [] => o'
          | _ :: rest' => scan rest' o'
          end
      | None => scan rest (keep a o)
      end
  end.

End Cli.

Module CliFacts.

(** [o] with other positional words. *)
Definition with_args (o : Cli.ParsedOptions) (l : list string) : Cli.ParsedOptions :=
  {| Cli.args := l; Cli.model := Cli.model o; Cli.host := Cli.host o;
     Cli.contextLength := Cli.contextLength o; Cli.mcpServers := Cli.mcpServers o |}.

(** The largest integer up to which every integer is a number. *)
Definition max_safe : Z := 9007199254740992.

End CliFacts.

(** [parseOptions] of the prototype: a flag is read only when a word follows
    it, so every value is a string. *)

Module IndexCli.

Record ParsedOptions : Type := {
  args : list string;
  model : string;
  host : string;
  contextLength : option Z
}.

Definition initial (argv : list string) : ParsedOptions :=
  {| args := argv;
     model := "ministral-3:8b";
     host := "http://localhost:11434";
     contextLength := Some 42000%Z |}.

(** [args[i]] where the guard [i < args.length] holds. *)
Definition element (l : list string) (i : nat) : string := default "" (l !! i).

Definition is_flag (a : string) : bool :=
  String.eqb a "--model" || String.eqb a "--host" || String.eqb a "--context-length".

(** The body of the [while] loop, entered with [i < args.length]. *)
Definition body (i : nat) (o : ParsedOptions) : nat * ParsedOptions :=
  let a := element (args o) i in
  let followed := (i + 1 <? length (args o))%nat in
  if String.eqb a "--model" && followed then
    (i, {| args := Cli.splice2 i (args o); model := element (args o) (i + 1);
           host := host o; contextLength := contextLength o |})
  else if String.eqb a "--host" && followed then
    (i, {| args := Cli.splice2 i (args o); model := model o;
           host := element (args o) (i + 1); contextLength := contextLength o |})
  else if String.eqb a "--context-length" && followed then
    (i, {| args := Cli.splice2 i (args o); model := model o; host := host o;
           contextLength := Cli.parseInt (element (args o) (i + 1)) |})
  else (i + 1, o).

Fixpoint loop (turns : nat) (i : nat) (o : ParsedOptions) : ParsedOptions :=
  match turns with
  | O => o
  | S turns' =>
      if (i <? length (args o))%nat
      then let (i', o') := body i o in loop turns' i' o'
      else o
  end.

Definition parseOptions (argv : list string) : ParsedOptions :=
  loop (length argv) 0 (initial argv).

Definition with_args (o : ParsedOptions) (l : list string) : ParsedOptions :=
  {| args := l; model := model o; host := host o; contextLength := contextLength o |}.

Definition set_flag (a v : string) (o : ParsedOptions) : option ParsedOptions :=
  if String.eqb a "--model" then
    Some {| args := args o; model := v; host := host o; contextLength := contextLength o |}
  else if String.eqb a "--host" then
    Some {| args := args o; model := model o; host := v; contextLength := contextLength o |}
  else if String.eqb a "--context-length" then
    Some {| args := args o; model := model o; host := host o;
            contextLength := Cli.parseInt v |}
  else None.

(** The same reading as one scan from left to right: a flag that is followed
    by a word takes it as its value; a flag at the very end is kept as a
    word. *)
Fixpoint scan (todo : list string) (o : ParsedOptions) : ParsedOptions :=
  match todo with
  | [] => o
  | a :: rest =>
      match rest with
      | v :: rest' =>
          match set_flag a v o with
          | Some o' => scan rest' o'
          | None => scan rest (with_args o (args o ++ [a]))
          end
      | [] => with_args o (args o ++ [a])
      end
  end.

End IndexCli.

Module Demo2.

(** A child that could not be started: [spawnSync] reports the error and
    has [null] for the status and for both outputs. *)
Definition unstartable : Proc :=
  {| duration := Some 0%Z;
     stubborn := false;
     returns := {| error := Some "ENOENT"; status := None; stdout := None; stderr := None |};
     effect := fun fs => fs |}.

(** A child that deletes the prototype's [temp.js] and exits with status 0. *)
Definition self_deleting : Proc :=
  {| duration := Some 10%Z;
     stubborn := false;
     returns := {| error := None; status := Some 0%Z; stdout := Some "bye"; stderr := Some "" |};
     effect := fun fs => delete "/opt/ralphie/temp.js" fs |}.

(** A child that prints to both streams and exits with status 0. *)
Definition chatty : Proc :=
  {| duration := Some 10%Z;
     stubborn := false;
     returns := {| error := None; status := Some 0%Z;
                   stdout := Some "out"; stderr := Some "warning" |};
     effect := fun fs => fs |}.

(** The accumulators after one successful pass, the world of a pass whose
    segment fails, and the accumulators and the world that pass leaves. *)
Definition one_directory : CodeAgent.LoopState :=
  {| CodeAgent.progressLog := nl +:+ "Code: mkdir('out')" +:+ nl +:+ "Output: ";
     CodeAgent.errorLog := Some "";
     CodeAgent.projectStateSummary := "No active task." |}.

Definition failing : Sim :=
  Demo.scripted ["One directory made."; "console.log(x)"]
    [Demo.fails "ReferenceError: x is not defined"].

Definition one_directory_failed : CodeAgent.LoopState :=
  {| CodeAgent.progressLog := nl +:+ "Code: mkdir('out')" +:+ nl +:+ "Output: ";
     CodeAgent.errorLog := Some "ReferenceError: x is not defined";
     CodeAgent.projectStateSummary := "One directory made." |}.

Definition failed : Sim :=
  {| files := ∅; backend := []; procs := []; clock := 1700000000001%Z |}.

(** A child that never exits and runs on when it is sent SIGTERM. *)
Definition deaf : Proc :=
  {| duration := None;
     stubborn := true;
     returns := {| error := None; status := None; stdout := Some ""; stderr := Some "" |};
     effect := fun fs => fs |}.

End Demo2.

(** ** Start-up and the session of the code-emission agent *)

Module Mcp.

Section Setup.
Context {W : Type}.

(** [client.connect(transport)] and then [client.listTools()] for the
    provider started from [serverPath], with each tool already in the
    format of the registry; either call may throw. *)
Variable listTools : option string -> Eff W (list ToolDefinition).

(** The [for] loop of [setupMCP], with [tools] and [clients] as they stand
    when it gets to [serverPaths]. *)
Fixpoint setupMCP_from (serverPaths : list (option string)) (tools : list ToolDefinition)
    (clients : list CodeAgent.McpClient)
    : Eff W (list ToolDefinition * list CodeAgent.McpClient) :=
  match serverPaths with
  | [] => ret (tools, clients)
  | serverPath :: rest =>
      let* loaded :=
        try_catch
          (let* serverTools := listTools serverPath in ret (Some serverTools))
          (fun _ => ret None) in
      match loaded with
      | Some serverTools =>
          setupMCP_from rest (tools ++ serverTools)
            (clients ++ [ {| CodeAgent.client := length clients;
                             CodeAgent.toolNames := map td_name serverTools |} ])
      | None => setupMCP_from rest tools clients
      end
  end.

Definition setupMCP (serverPaths : list (option string))
    : Eff W (list ToolDefinition * list CodeAgent.McpClient) :=
  setupMCP_from serverPaths CodeAgent.nativeToolDefinitions [].

End Setup.

(** What ties [tools] to [clients]: the names offered are the native ones
    and then each client's, in order, and a client's number is its place in
    [clients]. *)
Definition registry (tools : list ToolDefinition) (clients : list CodeAgent.McpClient) : Prop :=
  map td_name tools =
  CodeAgent.NATIVE_TOOL_NAMES ++ concat (map CodeAgent.toolNames clients) /\
  map CodeAgent.client clients = seq 0 (length clients).

End Mcp.

Module Session.

(** The two accumulators that live as long as [main]. *)
Record Logs : Type := {
  progressLog : string;
  projectStateSummary : string
}.

Definition is_exit (currentTask : string) : bool :=
  CodeAgent.string_in (Js.toLowerCase currentTask) ["exit"; "quit"].

Definition isReplMode (initialInput : string) : bool :=
  negb (Js.truthy (Js.JString initialInput)).

(** The accumulators after a task: a chat leaves them, the control loop
    hands on what it has built. *)
Definition after_task (logs : Logs) (r : option (Exit * CodeAgent.LoopState)) : Logs :=
  match r with
  | Some (_, st) =>
      {| progressLog := CodeAgent.progressLog st;
         projectStateSummary := CodeAgent.projectStateSummary st |}
  | None => logs
  end.

Section Main.
Context {W : Type} `{Host W}.

Definition initialInput (args : list string) : Eff W string :=
  match args with
  | first :: _ =>
      let* present := exists_file first in
      if present : bool then read first else ret (Js.join args " ")
  | [] => ret (Js.join args " ")
  end.

(** The outer [while (true)] in REPL mode.  [lines] is what is typed at the
    prompt, one element for each [rl.question]; when it is used up the
    program waits at the prompt.  The result is the accumulators and the
    lines not read. *)
Fixpoint repl (passes rounds : nat) (opts : CodeAgent.Options) (lines : list string)
    (logs : Logs) : Eff W (Logs * list string) :=
  match lines with
  | [] => fun w => (Pending, w)
  | currentTask :: rest =>
      if is_exit currentTask then ret (logs, rest)
      else if String.eqb (Js.trim currentTask) "" then repl passes rounds opts rest logs
      else
        let* r :=
          CodeAgent.run_task passes rounds opts currentTask
            (progressLog logs) (projectStateSummary logs) in
        repl passes rounds opts rest (after_task logs r)
  end.

Definition start : Logs :=
  {| progressLog := ""; projectStateSummary := "No active task." |}.

(** The outer [while (true)] of [main]: one task from the command line, or
    the REPL. *)
Definition session (passes rounds : nat) (opts : CodeAgent.Options) (initialInput : string)
    (lines : list string) : Eff W (Logs * list string) :=
  if isReplMode initialInput then repl passes rounds opts lines start
  else
    let* r :=
      CodeAgent.run_task passes rounds opts initialInput
        (progressLog start) (projectStateSummary start) in
    ret (after_task start r, lines).

End Main.

End Session.

Module Demo3.

Definition git_status : ToolDefinition :=
  {| td_name := "git_status"; td_properties := []; td_required := [] |}.

(** A provider script on the scripted world: [git-server] loads and offers
    one tool, anything else fails to start. *)
Definition listTools (serverPath : option string) : Eff Sim (list ToolDefinition) :=
  match serverPath with
  | Some "git-server" => ret [git_status]
  | _ => throw "spawn npx ENOENT"
  end.

End Demo3.

(** * Properties *)

Example split_abcabc : Js.split "xabyabz" "ab" = ["x"; "y"; "z"].
Proof. reflexivity. Qed.

Example split_overlap : Js.split "aaa" "aa" = [""; "a"].
Proof. reflexivity. Qed.

Example split_empty_sep : Js.split "abc" "" = ["a"; "b"; "c"].
Proof. reflexivity. Qed.

Example split_empty_both : Js.split "" "" = [] /\ Js.split "" "x" = [""].
Proof. split; reflexivity. Qed.

Example trim_ex : Js.trim ("  yes" +:+ nl +:+ " ") = "yes".
Proof. reflexivity. Qed.

Example slice_ex :
  Js.slice "abcdef" (-2) = "ef" /\ Js.slice "abcdef" 0 = "abcdef" /\
  Js.slice "ab" (-5) = "ab".
Proof. repeat split; reflexivity. Qed.

Example decimal_ex : Js.decimal 1700000000123 = "1700000000123".
Proof. reflexivity. Qed.

(** ** Facts about the string methods *)

Lemma append_nil_l (s : string) : "" +:+ s = s.
Proof. reflexivity. Qed.

Lemma append_cons (c : ascii) (a b : string) : String c a +:+ b = String c (a +:+ b).
Proof. reflexivity. Qed.

(** [String.append] is never unfolded by [simpl]; its two equations are
    rewritten instead. *)
Ltac unfold_append := rewrite ?append_cons, ?append_nil_l in *; simpl in *.

Lemma append_nil_r (s : string) : s +:+ "" = s.
Proof. induction s as [|c s IH]; unfold_append; congruence. Qed.

Lemma append_assoc (a b c : string) : (a +:+ b) +:+ c = a +:+ b +:+ c.
Proof. induction a as [|x a IH]; unfold_append; congruence. Qed.

Lemma length_append (a b : string) :
  String.length (a +:+ b) = String.length a + String.length b.
Proof. induction a as [|x a IH]; unfold_append; congruence. Qed.

Lemma startsWith_append (sub t : string) : Js.startsWith (sub +:+ t) sub = true.
Proof.
  induction sub as [|c sub IH]; unfold_append; [reflexivity|].
  now rewrite Ascii.eqb_refl.
Qed.

Lemma startsWith_split (s sub : string) :
  Js.startsWith s sub = true -> s = sub +:+ Js.drop (String.length sub) s.
Proof.
  revert s; induction sub as [|c sub IH]; intros s Hs; unfold_append.
  - now destruct s.
  - destruct s as [|b s]; [discriminate|].
    destruct (Ascii.eqb_spec c b) as [->|]; [|discriminate].
    f_equal. now apply IH.
Qed.

Lemma startsWith_empty (sub : string) : sub <> "" -> Js.startsWith "" sub = false.
Proof. now destruct sub. Qed.


Lemma take_append (a b : string) : Js.take (String.length a) (a +:+ b) = a.
Proof. induction a as [|x a IH]; unfold_append; [now destruct b | congruence]. Qed.

Lemma drop_append (a b : string) : Js.drop (String.length a) (a +:+ b) = b.
Proof. induction a as [|x a IH]; unfold_append; [now destruct b | assumption]. Qed.

Lemma drop_drop (n m : nat) (s : string) : Js.drop n (Js.drop m s) = Js.drop (m + n) s.
Proof.
  revert s; induction m as [|m IH]; intros s; simpl; [reflexivity|].
  destruct s as [|c s]; [now destruct n | apply IH].
Qed.

Lemma length_drop (n : nat) (s : string) :
  String.length (Js.drop n s) = String.length s - n.
Proof.
  revert s; induction n as [|n IH]; intros s; simpl; [lia|].
  destruct s as [|c s]; simpl; [reflexivity | apply IH].
Qed.

Lemma take_drop (n : nat) (s : string) : Js.take n s +:+ Js.drop n s = s.
Proof.
  revert s; induction n as [|n IH]; intros s; simpl; [now destruct s|].
  destruct s as [|c s]; unfold_append; [reflexivity | now rewrite IH].
Qed.

Lemma length_take (n : nat) (s : string) :
  String.length (Js.take n s) = Nat.min n (String.length s).
Proof.
  revert s; induction n as [|n IH]; intros s; simpl; [now destruct s|].
  destruct s as [|c s]; simpl; [reflexivity | now rewrite IH].
Qed.

(** [indexOf] finds an occurrence, and the first one. *)
Lemma indexOf_Some (s sub : string) (i : nat) :
  Js.indexOf s sub = Some i ->
  Js.startsWith (Js.drop i s) sub = true /\ i + String.length sub <= String.length s.
Proof.
  revert i; induction s as [|c s IH]; intros i; simpl.
  - destruct (Js.startsWith "" sub) eqn:E; [|discriminate].
    intros [= <-]. split; [assumption|]. destruct sub; [simpl; lia | discriminate].
  - destruct (Js.startsWith (String c s) sub) eqn:E.
    + intros [= <-]. split; [assumption|].
      apply startsWith_split in E. apply (f_equal String.length) in E.
      rewrite length_append in E. simpl in *. lia.
    + destruct (Js.indexOf s sub) as [j|]; simpl; [|discriminate].
      intros [= <-]. destruct (IH j eq_refl) as [H1 H2]. simpl. split; [assumption | lia].
Qed.

Lemma indexOf_cut (s sub : string) (i : nat) :
  Js.indexOf s sub = Some i ->
  s = Js.take i s +:+ sub +:+ Js.drop (i + String.length sub) s.
Proof.
  intros Hi. apply indexOf_Some in Hi as [Hi _].
  apply startsWith_split in Hi. rewrite drop_drop in Hi.
  rewrite <- Hi. symmetry. apply take_drop.
Qed.

Lemma indexOf_None (s sub : string) :
  Js.indexOf s sub = None <-> Js.includes s sub = false.
Proof.
  induction s as [|c s IH]; simpl.
  - destruct (Js.startsWith "" sub); simpl; split; congruence.
  - destruct (Js.startsWith (String c s) sub); simpl; [split; congruence|].
    rewrite <- IH. destruct (Js.indexOf s sub); simpl; split; congruence.
Qed.


Lemma occurrences_zero (s sub : string) :
  Js.occurrences s sub = 0 <-> Js.includes s sub = false.
Proof.
  induction s as [|c s IH]; simpl.
  - destruct (Js.startsWith "" sub); simpl; split; (congruence || lia).
  - destruct (Js.startsWith (String c s) sub); simpl; [split; (congruence || lia)|].
    exact IH.
Qed.

Lemma occurrences_drop (n : nat) (s sub : string) :
  Js.occurrences (Js.drop n s) sub <= Js.occurrences s sub.
Proof.
  revert s; induction n as [|n IH]; intros s; simpl; [lia|].
  destruct s as [|c s]; [lia|]. specialize (IH s). simpl. lia.
Qed.

Lemma occurrences_tail (c : ascii) (s sub : string) :
  Js.occurrences (String c s) sub =
  (if Js.startsWith (String c s) sub then 1 else 0) + Js.occurrences s sub.
Proof. reflexivity. Qed.

Lemma occurrences_here (a sub b : string) :
  1 <= Js.occurrences (a +:+ sub +:+ b) sub.
Proof.
  induction a as [|c a IH].
  - rewrite append_nil_l. pose proof (startsWith_append sub b) as E.
    destruct (sub +:+ b); simpl; rewrite E; lia.
  - rewrite append_cons, occurrences_tail. lia.
Qed.

(** ** Facts about [split] and [join] *)

Lemma indexOf_unfold (s sub : string) :
  Js.indexOf s sub =
  if Js.startsWith s sub then Some 0
  else match s with
       | EmptyString => None
       | String _ s' => option_map S (Js.indexOf s' sub)
       end.
Proof. now destruct s. Qed.

Lemma split_from_absent (fuel : nat) (s sep : string) :
  Js.indexOf s sep = None -> Js.split_from fuel s sep = [s].
Proof. intros E. destruct fuel; simpl; [reflexivity | now rewrite E]. Qed.








(** A string that occurs once is found where it stands, and not behind. *)
Lemma occurs_once (a sub b : string) :
  sub <> "" -> Js.occurrences (a +:+ sub +:+ b) sub = 1 ->
  Js.indexOf (a +:+ sub +:+ b) sub = Some (String.length a) /\ Js.occurrences b sub = 0.
Proof.
  intros Hsub. induction a as [|c a IH]; intros Hocc.
  - rewrite append_nil_l in *. rewrite indexOf_unfold, startsWith_append.
    split; [reflexivity|].
    destruct sub as [|x sub]; [congruence|].
    rewrite append_cons, occurrences_tail, <- append_cons, startsWith_append in Hocc.
    pose proof (occurrences_drop (String.length sub) (sub +:+ b) (String x sub)) as Hle.
    rewrite drop_append in Hle. lia.
  - rewrite append_cons in *. rewrite occurrences_tail in Hocc.
    pose proof (occurrences_here a sub b) as Hge.
    destruct (Js.startsWith (String c (a +:+ sub +:+ b)) sub) eqn:E; [lia|].
    destruct IH as [IH1 IH2]; [lia|].
    rewrite indexOf_unfold, E, IH1. now split.
Qed.

Lemma split_once (a sub b : string) :
  sub <> "" -> Js.occurrences (a +:+ sub +:+ b) sub = 1 ->
  Js.split (a +:+ sub +:+ b) sub = [a; b].
Proof.
  intros Hsub Hocc. destruct (occurs_once a sub b Hsub Hocc) as [Hi Hb].
  unfold Js.split. destruct (String.eqb_spec sub ""); [congruence|].
  destruct (String.length (a +:+ sub +:+ b)) as [|fuel] eqn:Hlen.
  - rewrite !length_append in Hlen. destruct sub; [congruence | simpl in Hlen; lia].
  - simpl. rewrite Hi, take_append.
    rewrite <- drop_drop, drop_append, drop_append.
    rewrite split_from_absent; [reflexivity|].
    now apply indexOf_None, occurrences_zero.
Qed.

(** A string with one occurrence of [sub] is cut in two by it. *)
Lemma occurs_cut (s sub : string) :
  1 <= Js.occurrences s sub -> exists a b, s = a +:+ sub +:+ b.
Proof.
  intros Hocc. destruct (Js.indexOf s sub) as [i|] eqn:E.
  - eexists _, _. exact (indexOf_cut _ _ _ E).
  - apply indexOf_None, occurrences_zero in E. lia.
Qed.

(** ** Facts about the effects *)

Lemma bind_ok {W A B} (m : Eff W A) (k : A -> Eff W B) (w w' : W) (b : B) :
  bind m k w = (Ok b, w') ->
  exists a w1, m w = (Ok a, w1) /\ k a w1 = (Ok b, w').
Proof.
  unfold bind. destruct (m w) as [[a|e|] w1]; [eauto | discriminate..].
Qed.

Lemma bind_ret {W A B} (a : A) (k : A -> Eff W B) (w : W) : bind (ret a) k w = k a w.
Proof. reflexivity. Qed.

Lemma bind_step {W A B} (m : Eff W A) (k : A -> Eff W B) (w w1 : W) (a : A) :
  m w = (Ok a, w1) -> bind m k w = k a w1.
Proof. intros E. unfold bind. now rewrite E. Qed.

(** ** The tool registry on the scripted world *)

Lemma sim_resolve_not_empty (p : string) : p <> "" -> SimHost.sim_resolve p <> "".
Proof.
  intros _. unfold SimHost.sim_resolve, SimHost.normalize.
  rewrite append_cons. discriminate.
Qed.

Lemma truthy_string (p : string) : p <> "" -> Js.truthy (Js.JString p) = true.
Proof. intros Hp. simpl. now apply String.eqb_neq in Hp as ->. Qed.

(** Reading in the scripted world. *)
Lemma sim_read_file (w : Sim) (p data : string) :
  files w !! p = Some data -> @read Sim _ p w = (Ok data, w).
Proof. intros E. unfold read. simpl. unfold SimHost.sim_read. now rewrite E. Qed.

Lemma sim_write_file (w : Sim) (p data : string) :
  SimHost.writable w p = true ->
  @writeFileSync Sim _ p data w = (Ok tt, SimHost.with_files w (<[p := data]> (files w))).
Proof. intros Hp. simpl. unfold SimHost.sim_write. now rewrite Hp. Qed.

Lemma sim_append_file (w : Sim) (p data : string) :
  SimHost.writable w p = true ->
  @appendFileSync Sim _ p data w =
  (Ok tt, SimHost.with_files w (<[p := default "" (files w !! p) +:+ data]> (files w))).
Proof. intros Hp. simpl. unfold SimHost.sim_append. now rewrite Hp. Qed.

(** A file that is there can be written. *)
Lemma writable_existing (w : Sim) (p data : string) :
  p <> "" -> files w !! p = Some data -> SimHost.writable w p = true.
Proof.
  intros Hp Hfile. unfold SimHost.writable.
  apply String.eqb_neq in Hp as ->. rewrite Hfile.
  now rewrite bool_decide_eq_true_2 by eauto.
Qed.

(** What [search_and_replace] does to a readable file, for string
    arguments. *)
Lemma sim_search_and_replace (w : Sim) (args : gmap string Js.JsValue)
    (p search replace data : string) :
  p <> "" ->
  prop args "path" = Js.JString p ->
  prop args "search" = Js.JString search ->
  prop args "replace" = Js.JString replace ->
  files w !! resolve p = Some data ->
  ToolAgent.handleNativeTool "search_and_replace" args w =
  if Js.includes data search
  then (Ok (Some ("Successfully replaced text in " +:+ p)),
        SimHost.with_files w
          (<[resolve p := Js.join (Js.split data search) replace]> (files w)))
  else (Ok (Some ("Error: String " +:+ quoted search +:+ " not found.")), w).
Proof.
  intros Hp Hpath Hsearch Hreplace Hfile.
  unfold ToolAgent.handleNativeTool, ToolAgent.dispatch, bind, try_catch.
  rewrite Hpath, Hsearch, Hreplace, (truthy_string p Hp).
  cbn [path_resolve ret String.eqb Ascii.eqb Bool.eqb].
  rewrite (sim_read_file w _ data Hfile).
  cbn [Js.ToString Js.split_value Js.join_value].
  destruct (Js.includes data search); cbn [negb ret].
  - rewrite sim_write_file
      by (apply (writable_existing w _ data); [now apply sim_resolve_not_empty | assumption]).
    reflexivity.
  - reflexivity.
Qed.




Lemma occurrences_empty_sub (s : string) : Js.occurrences s "" = S (String.length s).
Proof. induction s as [|c s IH]; simpl; [reflexivity | now rewrite IH]. Qed.

(** C6, as stated, fails: in "ab" the string "a" occurs once; replacing it
    by "b" gives "bb", and the swapped call replaces both "b", so the file
    ends as "aa". *)
Lemma search_and_replace_swap_not_inverse :
  Js.occurrences "ab" "a" = 1 /\
  exists w1 w2,
    ToolAgent.handleNativeTool "search_and_replace" (Demo.replace_call "x.txt" "a" "b")
      (Demo.world {[ "/work/x.txt" := "ab" ]}) =
    (Ok (Some "Successfully replaced text in x.txt"), w1) /\
    ToolAgent.handleNativeTool "search_and_replace" (Demo.replace_call "x.txt" "b" "a") w1 =
    (Ok (Some "Successfully replaced text in x.txt"), w2) /\
    files w2 !! "/work/x.txt" = Some "aa" /\
    files w2 !! "/work/x.txt" <> Some "ab".
Proof.
  split; [reflexivity|].
  eexists _, _. split; [vm_compute; reflexivity|].
  split; [vm_compute; reflexivity|].
  split; [reflexivity | discriminate].
Qed.

(** C6, amended.  When the search string occurs exactly once in the file,
    the replacement is not empty and, in the content after the first call,
    the replacement occurs exactly once as well (only where it was put),
    the swapped call restores the file's content. *)
Theorem search_and_replace_round_trip (w : Sim) (there back : gmap string Js.JsValue)
    (p search replacement data : string) :
  p <> "" ->
  prop there "path" = Js.JString p ->
  prop there "search" = Js.JString search ->
  prop there "replace" = Js.JString replacement ->
  prop back "path" = Js.JString p ->
  prop back "search" = Js.JString replacement ->
  prop back "replace" = Js.JString search ->
  files w !! resolve p = Some data ->
  Js.occurrences data search = 1 ->
  replacement <> "" ->
  Js.occurrences (Js.join (Js.split data search) replacement) replacement = 1 ->
  exists w1 w2,
    ToolAgent.handleNativeTool "search_and_replace" there w =
    (Ok (Some ("Successfully replaced text in " +:+ p)), w1) /\
    ToolAgent.handleNativeTool "search_and_replace" back w1 =
    (Ok (Some ("Successfully replaced text in " +:+ p)), w2) /\
    files w2 !! resolve p = Some data.
Proof.
  intros Hp Hp1 Hs1 Hr1 Hp2 Hs2 Hr2 Hfile Hocc Hrep Hmid.
  assert (Hsearch : search <> "").
  { intros ->. rewrite occurrences_empty_sub in Hocc.
    destruct data; [|simpl in Hocc; lia].
    simpl in Hmid. rewrite startsWith_empty in Hmid by assumption. discriminate. }
  destruct (occurs_cut data search) as (a & b & ->); [lia|].
  rewrite (split_once a search b Hsearch Hocc) in Hmid.
  change (Js.join [a; b] replacement) with (a +:+ replacement +:+ b) in Hmid.
  pose proof (sim_search_and_replace w there p search replacement _
                Hp Hp1 Hs1 Hr1 Hfile) as Hrun1.
  rewrite (split_once a search b Hsearch Hocc) in Hrun1.
  change (Js.join [a; b] replacement) with (a +:+ replacement +:+ b) in Hrun1.
  replace (Js.includes (a +:+ search +:+ b) search) with true in Hrun1.
  2:{ symmetry. apply not_false_iff_true. intros E%occurrences_zero. lia. }
  set (w1 := SimHost.with_files w _) in Hrun1.
  assert (Hfile1 : files w1 !! resolve p = Some (a +:+ replacement +:+ b))
    by apply lookup_insert_eq.
  pose proof (sim_search_and_replace w1 back p replacement search _
                Hp Hp2 Hs2 Hr2 Hfile1) as Hrun2.
  rewrite (split_once a replacement b Hrep Hmid) in Hrun2.
  change (Js.join [a; b] search) with (a +:+ search +:+ b) in Hrun2.
  replace (Js.includes (a +:+ replacement +:+ b) replacement) with true in Hrun2.
  2:{ symmetry. apply not_false_iff_true. intros E%occurrences_zero. lia. }
  eexists _, _. split; [exact Hrun1|]. split; [exact Hrun2|].
  apply lookup_insert_eq.
Qed.

Lemma search_and_replace_round_trip_witness :
  exists w1 w2,
    ToolAgent.handleNativeTool "search_and_replace" (Demo.replace_call "x.txt" "cat" "dog")
      (Demo.world {[ "/work/x.txt" := "a cat sat" ]}) =
    (Ok (Some ("Successfully replaced text in " +:+ "x.txt")), w1) /\
    ToolAgent.handleNativeTool "search_and_replace" (Demo.replace_call "x.txt" "dog" "cat") w1 =
    (Ok (Some ("Successfully replaced text in " +:+ "x.txt")), w2) /\
    files w2 !! resolve "x.txt" = Some "a cat sat".
Proof.
  apply (search_and_replace_round_trip
           (Demo.world {[ "/work/x.txt" := "a cat sat" ]})
           (Demo.replace_call "x.txt" "cat" "dog") (Demo.replace_call "x.txt" "dog" "cat")
           "x.txt" "cat" "dog" "a cat sat");
    reflexivity || discriminate.
Defined.

(** What [write_file] does when [append] is set and the file can be
    written. *)
Lemma sim_write_file_append (w : Sim) (args : gmap string Js.JsValue) (p text : string) :
  p <> "" ->
  prop args "path" = Js.JString p ->
  prop args "text" = Js.JString text ->
  Js.truthy (prop args "append") = true ->
  SimHost.writable w (resolve p) = true ->
  ToolAgent.handleNativeTool "write_file" args w =
  (Ok (Some ("Successfully appended to " +:+ p)),
   SimHost.with_files w
     (<[resolve p := default "" (files w !! resolve p) +:+ text]> (files w))).
Proof.
  intros Hp Hpath Htext Happend Hdir.
  unfold ToolAgent.handleNativeTool, ToolAgent.dispatch, bind, try_catch.
  rewrite Hpath, Htext, Happend, (truthy_string p Hp).
  cbn [path_resolve ret String.eqb Ascii.eqb Bool.eqb append_value Js.ToString].
  rewrite sim_append_file by assumption.
  reflexivity.
Qed.

(** In the tool-calling agent, [write_file] with [append] set appends: where
    the file can be written, two calls with the same text leave it with its
    old content (nothing, for a file that did not exist) followed by the text
    twice. *)
Lemma write_file_append_twice (w : Sim) (args : gmap string Js.JsValue) (p text : string) :
  p <> "" ->
  prop args "path" = Js.JString p ->
  prop args "text" = Js.JString text ->
  Js.truthy (prop args "append") = true ->
  SimHost.writable w (resolve p) = true ->
  exists w1 w2,
    ToolAgent.handleNativeTool "write_file" args w =
    (Ok (Some ("Successfully appended to " +:+ p)), w1) /\
    files w1 !! resolve p = Some (default "" (files w !! resolve p) +:+ text) /\
    ToolAgent.handleNativeTool "write_file" args w1 =
    (Ok (Some ("Successfully appended to " +:+ p)), w2) /\
    files w2 !! resolve p = Some (default "" (files w !! resolve p) +:+ text +:+ text).
Proof.
  intros Hp Hpath Htext Happend Hdir.
  pose proof (sim_write_file_append w args p text Hp Hpath Htext Happend Hdir) as Hrun1.
  set (w1 := SimHost.with_files w _) in Hrun1.
  assert (Hfile1 : files w1 !! resolve p = Some (default "" (files w !! resolve p) +:+ text))
    by apply lookup_insert_eq.
  assert (Hdir1 : SimHost.writable w1 (resolve p) = true).
  { apply (writable_existing w1 _ _ (sim_resolve_not_empty p Hp) Hfile1). }
  pose proof (sim_write_file_append w1 args p text Hp Hpath Htext Happend Hdir1) as Hrun2.
  rewrite Hfile1 in Hrun2. cbn [default] in Hrun2.
  eexists _, _. split; [exact Hrun1|]. split; [exact Hfile1|]. split; [exact Hrun2|].
  cbn [files SimHost.with_files]. rewrite lookup_insert_eq.
  unfold id. now rewrite append_assoc.
Qed.

(** Scenario C in the tool-calling agent: twice "a" on a new "x.txt" is
    "aa". *)
Example write_file_append_twice_on_new_file :
  exists w1 w2,
    ToolAgent.handleNativeTool "write_file" (Demo.append_call "x.txt" "a") (Demo.world ∅) =
    (Ok (Some "Successfully appended to x.txt"), w1) /\
    ToolAgent.handleNativeTool "write_file" (Demo.append_call "x.txt" "a") w1 =
    (Ok (Some "Successfully appended to x.txt"), w2) /\
    files w2 !! "/work/x.txt" = Some "aa".
Proof. eexists _, _. repeat split; vm_compute; reflexivity. Qed.

(** Where the directory is missing, the append fails and is reported. *)
Example write_file_append_without_directory :
  ToolAgent.handleNativeTool "write_file" (Demo.append_call "nodir/x.txt" "a") (Demo.world ∅) =
  (Ok (Some ("Error executing write_file: " +:+ SimHost.ENOENT "/work/nodir/x.txt")),
   Demo.world ∅).
Proof. vm_compute. reflexivity. Qed.

(** C7.  The registry whose tool definition describes [write_file] as
    "Write or append text to a file" takes no notice of [append]: whatever
    the arguments say about it, two calls with the same non-empty text that
    both report success leave the file holding the text once, not its old
    content followed by the text twice. *)
Theorem write_file_append_is_ignored (w w1 w2 : Sim) (args : gmap string Js.JsValue)
    (p text : string) :
  p <> "" ->
  prop args "path" = Js.JString p ->
  prop args "text" = Js.JString text ->
  text <> "" ->
  Registry2.handleNativeTool "write_file" args w =
  (Ok (Some ("Successfully wrote to " +:+ p)), w1) ->
  Registry2.handleNativeTool "write_file" args w1 =
  (Ok (Some ("Successfully wrote to " +:+ p)), w2) ->
  files w2 !! resolve p = Some text /\
  files w2 !! resolve p <> Some (default "" (files w !! resolve p) +:+ text +:+ text).
Proof.
  intros Hp Hpath Htext Hne Hrun1 Hrun2.
  assert (Hcall : forall v v',
            Registry2.handleNativeTool "write_file" args v =
            (Ok (Some ("Successfully wrote to " +:+ p)), v') ->
            files v' !! resolve p = Some text).
  { intros v v'.
    unfold Registry2.handleNativeTool, Registry2.dispatch, bind, try_catch.
    rewrite Hpath, Htext, (truthy_string p Hp).
    replace (Js.or (Js.or (Js.JString text) (prop args "data")) (prop args "newData"))
      with (Js.JString text)
      by (unfold Js.or; now rewrite !(truthy_string text Hne)).
    cbn [Registry2.path_resolve ret String.eqb Ascii.eqb Bool.eqb orb write_value].
    simpl writeFileSync. unfold SimHost.sim_write.
    destruct (SimHost.writable v _).
    - intros [= <-]. apply lookup_insert_eq.
    - unfold ret. rewrite !append_cons. discriminate. }
  apply Hcall in Hrun2. split; [assumption|].
  rewrite Hrun2. intros [= E]. apply (f_equal String.length) in E.
  rewrite !length_append in E.
  destruct text; [congruence | simpl in E; lia].
Qed.

Lemma write_file_append_is_ignored_witness :
  Registry2.handleNativeTool "write_file" (Demo.append_call "x.txt" "a") (Demo.world ∅) =
  (Ok (Some ("Successfully wrote to " +:+ "x.txt")), Demo.world {[ "/work/x.txt" := "a" ]}) /\
  Registry2.handleNativeTool "write_file" (Demo.append_call "x.txt" "a")
    (Demo.world {[ "/work/x.txt" := "a" ]}) =
  (Ok (Some ("Successfully wrote to " +:+ "x.txt")), Demo.world {[ "/work/x.txt" := "a" ]}) /\
  files (Demo.world {[ "/work/x.txt" := "a" ]}) !! resolve "x.txt" = Some "a" /\
  files (Demo.world {[ "/work/x.txt" := "a" ]}) !! resolve "x.txt" <>
  Some (default "" (files (Demo.world ∅) !! resolve "x.txt") +:+ "a" +:+ "a").
Proof.
  split; [reflexivity|]. split; [reflexivity|].
  exact (write_file_append_is_ignored (Demo.world ∅)
           (Demo.world {[ "/work/x.txt" := "a" ]}) (Demo.world {[ "/work/x.txt" := "a" ]})
           (Demo.append_call "x.txt" "a") "x.txt" "a"
           ltac:(discriminate) eq_refl eq_refl ltac:(discriminate) eq_refl eq_refl).
Defined.

(** ** The tool registry on any host *)

Section RegistryFacts.
Context {W : Type} `{Host W}.

Lemma try_catch_ret_never_throws {A} (m : Eff W A) (f : string -> A) (w : W) e w' :
  try_catch m (fun message => ret (f message)) w <> (Throw e, w').
Proof.
  unfold try_catch, ret. destruct (m w) as [[a|e0|] w0]; discriminate.
Qed.

Lemma path_of_string_or_falsy (args : gmap string Js.JsValue) (w : W) :
  Js.truthy (prop args "path") = false \/ (exists q, prop args "path" = Js.JString q) ->
  exists p,
    (if Js.truthy (prop args "path") then path_resolve (prop args "path") else ret "") w =
    (Ok p, w).
Proof.
  intros [E|(q & E)]; rewrite E.
  - now exists "".
  - destruct (Js.truthy (Js.JString q)); eexists; reflexivity.
Qed.

(** With a [path] that is a string or falsy, no exception leaves the
    handler. *)
Lemma handleNativeTool_never_throws (name : string) (args : gmap string Js.JsValue)
    (w w' : W) (e : string) :
  Js.truthy (prop args "path") = false \/ (exists q, prop args "path" = Js.JString q) ->
  ToolAgent.handleNativeTool name args w <> (Throw e, w').
Proof.
  intros Hpath. destruct (path_of_string_or_falsy args w Hpath) as [p Hp].
  unfold ToolAgent.handleNativeTool, bind. rewrite Hp.
  apply try_catch_ret_never_throws.
Qed.

(** Every exception of the [try] block comes back as the error text. *)
Lemma handleNativeTool_catches (name : string) (args : gmap string Js.JsValue)
    (p e : string) (w w' : W) :
  (if Js.truthy (prop args "path") then path_resolve (prop args "path") else ret "") w =
  (Ok p, w) ->
  ToolAgent.dispatch name args p w = (Throw e, w') ->
  ToolAgent.handleNativeTool name args w =
  (Ok (Some ("Error executing " +:+ name +:+ ": " +:+ e)), w').
Proof.
  intros Hp Hbody. unfold ToolAgent.handleNativeTool, bind, try_catch.
  now rewrite Hp, Hbody.
Qed.

Lemma or_null_default (a : option string) (s : string) :
  exists t, or_null a (Some s) = Some t.
Proof. destruct a as [x|]; simpl; [destruct (String.eqb x "")|]; eauto. Qed.

(** For each of the four native tools, a call that completes returns a
    string. *)
Lemma dispatch_returns_string (name : string) (args : gmap string Js.JsValue)
    (p : string) (w w' : W) (v : option string) :
  CodeAgent.string_in name ToolAgent.NATIVE_TOOL_NAMES = true ->
  ToolAgent.dispatch name args p w = (Ok v, w') -> exists s, v = Some s.
Proof.
  unfold CodeAgent.string_in, ToolAgent.NATIVE_TOOL_NAMES. simpl.
  rewrite !orb_true_iff, !String.eqb_eq.
  intros [->|[->|[->|[->|?]]]]; [| | | |discriminate]; unfold ToolAgent.dispatch;
    cbn [String.eqb Ascii.eqb Bool.eqb]; intros Hrun.
  - apply bind_ok in Hrun as (data & w1 & _ & [= <- _]). eauto.
  - destruct (Js.truthy (prop args "append"));
      apply bind_ok in Hrun as (u & w1 & _ & [= <- _]); eauto.
  - apply bind_ok in Hrun as (data & w1 & _ & Hrun).
    destruct (negb _); [injection Hrun as <- _; eauto|].
    apply bind_ok in Hrun as (u & w2 & _ & [= <- _]). eauto.
  - apply bind_ok in Hrun as (result & w1 & _ & [= <- _]).
    apply or_null_default.
Qed.

(** The handler of the tool-calling agent returns a string for each of the
    four native tools, and throws nothing, when [path] is a string or
    falsy. *)
Lemma handleNativeTool_returns_string (name : string) (args : gmap string Js.JsValue)
    (w w' : W) (v : option string) :
  CodeAgent.string_in name ToolAgent.NATIVE_TOOL_NAMES = true ->
  Js.truthy (prop args "path") = false \/ (exists q, prop args "path" = Js.JString q) ->
  ToolAgent.handleNativeTool name args w = (Ok v, w') -> exists s, v = Some s.
Proof.
  intros Hname Hpath. destruct (path_of_string_or_falsy args w Hpath) as [p Hp].
  unfold ToolAgent.handleNativeTool, bind. rewrite Hp. unfold try_catch.
  destruct (ToolAgent.dispatch name args p w) as [[v0|e|] w0] eqn:Hrun.
  - intros [= <- <-]. now apply (dispatch_returns_string name args p w w0).
  - intros [= <- _]. eauto.
  - discriminate.
Qed.

(** On any host, a search string that is not in the file leaves the world
    untouched. *)
Lemma search_absent_leaves_world (args : gmap string Js.JsValue)
    (p search data : string) (w : W) :
  p <> "" ->
  prop args "path" = Js.JString p ->
  prop args "search" = Js.JString search ->
  readFileSync (resolve p) w = Ok data ->
  Js.includes data search = false ->
  ToolAgent.handleNativeTool "search_and_replace" args w =
  (Ok (Some ("Error: String " +:+ quoted search +:+ " not found.")), w).
Proof.
  intros Hp Hpath Hsearch Hread Habsent.
  unfold ToolAgent.handleNativeTool, ToolAgent.dispatch, bind, try_catch, read.
  rewrite Hpath, Hsearch, (truthy_string p Hp).
  cbn [path_resolve ret String.eqb Ascii.eqb Bool.eqb Js.ToString].
  now rewrite Hread, Habsent.
Qed.

End RegistryFacts.

(** C10.  The resolution of [args.path] stands before the [try]: a call
    whose [path] is the number 5 makes [path.resolve] throw a [TypeError],
    and the handler throws it on, whatever the tool and the host. *)
Theorem handleNativeTool_numeric_path_throws {W : Type} `{Host W} (name : string) (w : W) :
  ToolAgent.handleNativeTool name Demo.numeric_path w =
  (Throw (invalid_arg "paths[1]" (Js.JNumber 5)), w).
Proof. reflexivity. Qed.

(** ** The control loop of the code-emission agent *)

Section LoopFacts.
Context {W : Type} `{Host W}.
Import CodeAgent.

Lemma summarize_ok (opts : Options) (st0 st : LoopState) (w w' : W) :
  summarize opts st0 w = (Ok st, w') ->
  progressLog st = progressLog st0 /\ errorLog st = errorLog st0 /\
  exists summaryResponse : Message,
    projectStateSummary st = Js.trim (content summaryResponse).
Proof.
  unfold summarize. intros Hrun.
  apply bind_ok in Hrun as (errors & w1 & _ & Hrun).
  apply bind_ok in Hrun as (summaryResponse & w2 & _ & [= <- _]).
  simpl. eauto.
Qed.

(** How a pass that completes went. *)
Lemma outer_iteration_ok (rounds : nat) (opts : Options) (currentTask : string)
    (st0 : LoopState) (w w' : W) (step : Step LoopState) :
  outer_iteration rounds opts currentTask st0 w = (Ok step, w') ->
  exists st w1 segment w2,
    summarize opts st0 w = (Ok st, w1) /\
    generate rounds opts (generateRequest currentTask st) w1 = (Ok segment, w2) /\
    (Js.includes segment "PROJECT_DONE" = true /\ step = Break BySentinel st /\ w' = w2 \/
     Js.includes segment "PROJECT_DONE" = false /\
     exists execResult w3,
       executeSegment segment w2 = (Ok execResult, w3) /\
       (exec_error execResult = true /\
        step = Again Failed (on_error st execResult) /\ w' = w3 \/
        exec_error execResult = false /\
        exists checkResponse,
          chat (checkRequest currentTask (on_success st segment execResult)) w3 =
          (Ok checkResponse, w') /\
          (says_yes checkResponse = true /\
           step = Break ByCheck (on_success st segment execResult) \/
           says_yes checkResponse = false /\
           step = Again Succeeded (on_success st segment execResult)))).
Proof.
  unfold outer_iteration. intros Hrun.
  apply bind_ok in Hrun as (st & w1 & Hsum & Hrun).
  apply bind_ok in Hrun as (segment & w2 & Hgen & Hrun).
  exists st, w1, segment, w2. split; [assumption|]. split; [assumption|].
  destruct (Js.includes segment "PROJECT_DONE").
  - left. injection Hrun as <- <-. auto.
  - right. split; [reflexivity|].
    apply bind_ok in Hrun as (execResult & w3 & Hexec & Hrun).
    exists execResult, w3. split; [assumption|].
    destruct (exec_error execResult).
    + left. injection Hrun as <- <-. auto.
    + right. split; [reflexivity|].
      apply bind_ok in Hrun as (checkResponse & w4 & Hcheck & Hrun).
      exists checkResponse.
      destruct (says_yes checkResponse); injection Hrun as <- <-; auto.
Qed.



End LoopFacts.




(** A pass that ends on the sentinel has not executed its segment, but the
    tool calls of its generation turn have run: here a command has been
    started before the reply with the sentinel. *)
Example sentinel_after_a_tool_call :
  CodeAgent.outer_iteration 3 Demo.options "clean up" Demo.fresh
    {| files := ∅;
       backend :=
         [ Ok (CodeAgent.says assistant "Nothing yet.");
           Ok {| role := assistant; content := "";
                 tool_calls :=
                   [ {| fn_name := "run_terminal_command";
                        fn_arguments := {[ "command" := Js.JString "rm -rf build" ]} |} ];
                 name := None |};
           Ok (CodeAgent.says assistant "PROJECT_DONE") ];
       procs := [Demo.prints "removed"];
       clock := 1700000000000%Z |} =
  (Ok (Break BySentinel
         {| CodeAgent.progressLog := "";
            CodeAgent.errorLog := Some "";
            CodeAgent.projectStateSummary := "Nothing yet." |}),
   {| files := ∅; backend := []; procs := []; clock := 1700000000001%Z |}).
Proof. vm_compute. reflexivity. Qed.

(** C2.  A segment that exits with status 1 and prints nothing has failed:
    the pass takes the error branch, and the error log it leaves is the empty
    string, as after a success.  [executeSegment] gives a text of its own to
    a timeout, but none to a failure without output. *)
Theorem silent_failure_leaves_errorLog_empty :
  fst (CodeAgent.outer_iteration 3 Demo.options "say hello" Demo.fresh
         (Demo.scripted ["Nothing yet."; "process.exit(1)"] [Demo.fails ""])) =
  Ok (Again Failed
        {| CodeAgent.progressLog := "";
           CodeAgent.errorLog := Some "";
           CodeAgent.projectStateSummary := "Nothing yet." |}).
Proof. vm_compute. reflexivity. Qed.

(** Between two passes of a control loop entered with an empty error log:
    after a pass whose execution succeeded, and before the first pass, the
    error log is the empty string; after a pass whose execution failed it is
    the output captured from that execution, empty or not.  So a non-empty
    error log means that the last execution failed. *)
Lemma errorLog_between_passes {W : Type} `{Host W} (rounds : nat)
    (opts : CodeAgent.Options) (currentTask : string) (st0 st : CodeAgent.LoopState)
    (w0 w : W) (last : option Outcome) :
  CodeAgent.errorLog st0 = Some "" ->
  CodeAgent.between rounds opts currentTask st0 w0 last st w ->
  match last with
  | None | Some Succeeded => CodeAgent.errorLog st = Some ""
  | Some Failed =>
      exists segment w2 execResult,
        CodeAgent.executeSegment segment w2 = (Ok execResult, w) /\
        CodeAgent.exec_error execResult = true /\
        CodeAgent.errorLog st = CodeAgent.log execResult
  end /\
  (CodeAgent.truthy_log (CodeAgent.errorLog st) = true -> last = Some Failed).
Proof.
  intros Hentry Hbetween.
  destruct Hbetween as [|last st1 w1 outcome st w _ Hpass].
  - split; [assumption|]. rewrite Hentry. discriminate.
  - destruct (outer_iteration_ok _ _ _ _ _ _ _ Hpass)
      as (st2 & w2 & segment & w3 & _ & _ & Hend).
    destruct Hend as [(_ & [=] & _)|(_ & execResult & w4 & Hexec & Hend)].
    destruct Hend as [(Hfail & [= -> ->] & ->)|(_ & checkResponse & _ & Hend)].
    + split; [|reflexivity]. exists segment, w3, execResult. auto.
    + destruct Hend as [(_ & [=])|(_ & [= -> ->])].
      split; [reflexivity | discriminate].
Qed.

Example errorLog_after_failure :
  exists segment w2 execResult,
    CodeAgent.executeSegment segment w2 =
    (Ok execResult,
     {| files := ∅; backend := []; procs := []; clock := 1700000000001%Z |}) /\
    CodeAgent.exec_error execResult = true /\
    Some "ReferenceError: x is not defined" = CodeAgent.log execResult.
Proof.
  refine (proj1 (errorLog_between_passes 3 Demo.options "say hello" Demo.fresh
                   {| CodeAgent.progressLog := "";
                      CodeAgent.errorLog := Some "ReferenceError: x is not defined";
                      CodeAgent.projectStateSummary := "Nothing done yet." |}
                   (Demo.scripted ["Nothing done yet."; "console.log(x)"]
                      [Demo.fails "ReferenceError: x is not defined"])
                   {| files := ∅; backend := []; procs := []; clock := 1700000000001%Z |}
                   (Some Failed) eq_refl _)).
  eapply CodeAgent.between_pass; [apply CodeAgent.between_entry|].
  vm_compute. reflexivity.
Defined.

Section ProgressFacts.
Context {W : Type} `{Host W}.

(** What a pass does to the progress log. *)
Lemma outer_iteration_progressLog (rounds : nat) (opts : CodeAgent.Options)
    (currentTask : string) (st : CodeAgent.LoopState) (w w' : W)
    (step : Step CodeAgent.LoopState) :
  CodeAgent.outer_iteration rounds opts currentTask st w = (Ok step, w') ->
  match step with
  | Again Failed st' | Break BySentinel st' =>
      CodeAgent.progressLog st' = CodeAgent.progressLog st
  | Again Succeeded st' | Break ByCheck st' =>
      exists segment execResult,
        CodeAgent.exec_error execResult = false /\
        CodeAgent.progressLog st' =
        CodeAgent.progressLog st +:+ nl +:+ "Code: " +:+ segment +:+ nl +:+
        "Output: " +:+ CodeAgent.show_log (CodeAgent.log execResult)
  end.
Proof.
  intros Hpass.
  destruct (outer_iteration_ok _ _ _ _ _ _ _ Hpass)
    as (st1 & w1 & segment & w2 & Hsum & _ & Hend).
  apply summarize_ok in Hsum as (Hprogress & _).
  destruct Hend as [(_ & -> & _)|(_ & execResult & w3 & _ & Hend)]; [assumption|].
  destruct Hend as [(_ & -> & _)|(Hfine & checkResponse & _ & Hend)]; [assumption|].
  destruct Hend as [(_ & ->)|(_ & ->)];
    exists segment, execResult; simpl; now rewrite Hprogress.
Qed.

(** Over a whole run the progress log only grows at its end. *)
Lemma progressLog_prefix_kept (rounds : nat) (opts : CodeAgent.Options)
    (currentTask : string) (st0 st : CodeAgent.LoopState) (w0 w : W)
    (last : option Outcome) :
  CodeAgent.between rounds opts currentTask st0 w0 last st w ->
  exists suffix, CodeAgent.progressLog st = CodeAgent.progressLog st0 +:+ suffix.
Proof.
  induction 1 as [|last st w outcome st' w' _ [suffix IH] Hpass].
  - exists "". now rewrite append_nil_r.
  - apply outer_iteration_progressLog in Hpass.
    destruct outcome.
    + exists suffix. congruence.
    + destruct Hpass as (segment & execResult & _ & ->).
      rewrite IH, append_assoc. eauto.
Qed.

End ProgressFacts.

(** C3.  In every pass of a run of the control loop that completes: when the
    reply holds the sentinel nothing is executed and the progress log is left
    as it was; when [executeSegment] reports an error the pass goes on to the
    next with the progress log as it was; only when [executeSegment] reports
    no error is the progress log changed, by appending the segment and its
    output.  What the log held when the loop was entered is still its
    beginning. *)
Theorem progressLog_grows_only_on_success {W : Type} `{Host W} (rounds : nat)
    (opts : CodeAgent.Options) (currentTask : string) (st0 st : CodeAgent.LoopState)
    (w0 w w' : W) (last : option Outcome) (step : Step CodeAgent.LoopState) :
  CodeAgent.between rounds opts currentTask st0 w0 last st w ->
  CodeAgent.outer_iteration rounds opts currentTask st w = (Ok step, w') ->
  (exists suffix, CodeAgent.progressLog st = CodeAgent.progressLog st0 +:+ suffix) /\
  exists st1 w1 segment w2,
    CodeAgent.summarize opts st w = (Ok st1, w1) /\
    CodeAgent.generate rounds opts (CodeAgent.generateRequest currentTask st1) w1 =
    (Ok segment, w2) /\
    (Js.includes segment "PROJECT_DONE" = true /\
     step = Break BySentinel st1 /\
     CodeAgent.progressLog st1 = CodeAgent.progressLog st
     \/
     Js.includes segment "PROJECT_DONE" = false /\
     exists execResult w3,
       CodeAgent.executeSegment segment w2 = (Ok execResult, w3) /\
       (CodeAgent.exec_error execResult = true /\
        (exists st',
           step = Again Failed st' /\
           CodeAgent.progressLog st' = CodeAgent.progressLog st)
        \/
        CodeAgent.exec_error execResult = false /\
        exists st',
          (step = Again Succeeded st' \/ step = Break ByCheck st') /\
          CodeAgent.progressLog st' =
          CodeAgent.progressLog st +:+ nl +:+ "Code: " +:+ segment +:+ nl +:+
          "Output: " +:+ CodeAgent.show_log (CodeAgent.log execResult))).
Proof.
  intros Hbetween Hpass. split.
  - exact (progressLog_prefix_kept _ _ _ _ _ _ _ _ Hbetween).
  - destruct (outer_iteration_ok _ _ _ _ _ _ _ Hpass)
      as (st1 & w1 & segment & w2 & Hsum & Hgen & Hend).
    exists st1, w1, segment, w2. split; [assumption|]. split; [assumption|].
    apply summarize_ok in Hsum as (Hprogress & _).
    destruct Hend as [(Hdone & -> & _)|(Hdone & execResult & w3 & Hexec & Hend)];
      [left; auto|].
    right. split; [assumption|]. exists execResult, w3. split; [assumption|].
    destruct Hend as [(Hfail & -> & _)|(Hfine & checkResponse & _ & Hend)].
    + left. split; [assumption|]. eexists. split; [reflexivity|]. exact Hprogress.
    + right. split; [assumption|].
      exists (CodeAgent.on_success st1 segment execResult). split.
      * destruct Hend as [(_ & ->)|(_ & ->)]; auto.
      * simpl. now rewrite Hprogress.
Qed.

Lemma progressLog_grows_only_on_success_witness :
  CodeAgent.outer_iteration 3 Demo.options "say hello" Demo2.one_directory Demo2.failing =
  (Ok (Again Failed Demo2.one_directory_failed), Demo2.failed) /\
  (exists suffix,
     CodeAgent.progressLog Demo2.one_directory =
     CodeAgent.progressLog Demo2.one_directory +:+ suffix) /\
  exists st1 w1 segment w2,
    CodeAgent.summarize Demo.options Demo2.one_directory Demo2.failing = (Ok st1, w1) /\
    CodeAgent.generate 3 Demo.options (CodeAgent.generateRequest "say hello" st1) w1 =
    (Ok segment, w2) /\
    (Js.includes segment "PROJECT_DONE" = true /\
     Again Failed Demo2.one_directory_failed = Break BySentinel st1 /\
     CodeAgent.progressLog st1 = CodeAgent.progressLog Demo2.one_directory
     \/
     Js.includes segment "PROJECT_DONE" = false /\
     exists execResult w3,
       CodeAgent.executeSegment segment w2 = (Ok execResult, w3) /\
       (CodeAgent.exec_error execResult = true /\
        (exists st',
           Again Failed Demo2.one_directory_failed = Again Failed st' /\
           CodeAgent.progressLog st' = CodeAgent.progressLog Demo2.one_directory)
        \/
        CodeAgent.exec_error execResult = false /\
        exists st',
          (Again Failed Demo2.one_directory_failed = Again Succeeded st' \/
           Again Failed Demo2.one_directory_failed = Break ByCheck st') /\
          CodeAgent.progressLog st' =
          CodeAgent.progressLog Demo2.one_directory +:+ nl +:+ "Code: " +:+ segment +:+ nl +:+
          "Output: " +:+ CodeAgent.show_log (CodeAgent.log execResult))).
Proof.
  split; [reflexivity|].
  exact (progressLog_grows_only_on_success 3 Demo.options "say hello"
           Demo2.one_directory Demo2.one_directory Demo2.failing Demo2.failing Demo2.failed
           None (Again Failed Demo2.one_directory_failed)
           (CodeAgent.between_entry _ _ _ _ _) eq_refl).
Defined.

Section PassFacts.
Context {W : Type} `{Host W}.

(** A pass whose execution fails goes on to the next pass, with the output
    of the execution as the error log. *)
Lemma failed_execution_continues (rounds : nat) (opts : CodeAgent.Options)
    (currentTask : string) (st0 st : CodeAgent.LoopState) (w w1 w2 w3 : W)
    (segment : string) (execResult : CodeAgent.ExecResult) :
  CodeAgent.summarize opts st0 w = (Ok st, w1) ->
  CodeAgent.generate rounds opts (CodeAgent.generateRequest currentTask st) w1 =
  (Ok segment, w2) ->
  Js.includes segment "PROJECT_DONE" = false ->
  CodeAgent.executeSegment segment w2 = (Ok execResult, w3) ->
  CodeAgent.exec_error execResult = true ->
  CodeAgent.outer_iteration rounds opts currentTask st0 w =
  (Ok (Again Failed (CodeAgent.on_error st execResult)), w3).
Proof.
  intros Hsum Hgen Hdone Hexec Hfail. unfold CodeAgent.outer_iteration.
  rewrite (bind_step _ _ _ _ _ Hsum), (bind_step _ _ _ _ _ Hgen), Hdone.
  now rewrite (bind_step _ _ _ _ _ Hexec), Hfail.
Qed.

(** While no pass breaks, the loop goes on: observed for any number of
    passes, it has not returned. *)
Lemma control_loop_goes_on (passes rounds : nat) (opts : CodeAgent.Options)
    (currentTask : string) (st : CodeAgent.LoopState) (w : W) :
  (forall last st' w',
     CodeAgent.between rounds opts currentTask st w last st' w' ->
     exists outcome st'' w'',
       CodeAgent.outer_iteration rounds opts currentTask st' w' =
       (Ok (Again outcome st''), w'')) ->
  exists w', CodeAgent.control_loop passes rounds opts currentTask st w = (Pending, w').
Proof.
  intros Hgo.
  assert (Hany : forall last st' w',
            CodeAgent.between rounds opts currentTask st w last st' w' ->
            exists w'',
              CodeAgent.control_loop passes rounds opts currentTask st' w' = (Pending, w'')).
  { induction passes as [|passes IH]; intros last st' w' Hbetween; [now eexists|].
    destruct (Hgo _ _ _ Hbetween) as (outcome & st'' & w'' & Hpass).
    simpl. rewrite (bind_step _ _ _ _ _ Hpass).
    apply (IH (Some outcome)). now apply (CodeAgent.between_pass _ _ _ _ _ last st' w'). }
  apply (Hany None). constructor.
Qed.

End PassFacts.

(** A missing file is an error text, not an exception. *)
Example missing_file_is_an_error_text :
  ToolAgent.handleNativeTool "read_file" {[ "path" := Js.JString "gone.txt" ]} (Demo.world ∅) =
  (Ok (Some "Error executing read_file: ENOENT: no such file or directory, open '/work/gone.txt'"),
   Demo.world ∅).
Proof. vm_compute. reflexivity. Qed.

(** A tool call with a numeric path ends the pass, and with it the loop, by
    the exception. *)
Example numeric_path_breaks_the_loop :
  fst (CodeAgent.control_loop 5 5 Demo.options "read it" Demo.fresh Demo.asks_numeric_path) =
  Throw (invalid_arg "paths[1]" (Js.JNumber 5)).
Proof. vm_compute. reflexivity. Qed.

(** ** The router and the summarizer *)

(** C4, as stated, fails: a reply with neither keyword, an empty reply and a
    lower-case reply are all classified as CHAT. *)
Lemma router_defaults_to_chat :
  Js.includes "I am not sure." "CHAT" = false /\
  Js.includes "I am not sure." "ACTION" = false /\
  CodeAgent.classify "I am not sure." = CodeAgent.CHAT /\
  CodeAgent.classify "" = CodeAgent.CHAT /\
  CodeAgent.classify "action" = CodeAgent.CHAT /\
  fst (CodeAgent.route "fix the build" (Demo.scripted ["I am not sure."] [])) =
  Ok CodeAgent.CHAT.
Proof. repeat split; vm_compute; reflexivity. Qed.

(** C4, amended.  The router classifies the task as ACTION exactly when the
    backend's reply contains the marker ACTION, in capitals, and as CHAT in
    every other case: a reply with neither keyword, or a malformed one, is
    CHAT. *)
Theorem route_by_action_marker {W : Type} `{Host W} (currentTask : string)
    (routeResponse : Message) (w w' : W) :
  chat (CodeAgent.routeRequest currentTask) w = (Ok routeResponse, w') ->
  exists r,
    CodeAgent.route currentTask w = (Ok r, w') /\
    (r = CodeAgent.ACTION <-> Js.includes (content routeResponse) "ACTION" = true) /\
    (r = CodeAgent.CHAT <-> Js.includes (content routeResponse) "ACTION" = false).
Proof.
  intros Hchat. unfold CodeAgent.route. rewrite (bind_step _ _ _ _ _ Hchat).
  unfold CodeAgent.classify, CodeAgent.isAction.
  destruct (Js.includes (content routeResponse) "ACTION");
    eexists; (split; [reflexivity|]); split; split; congruence.
Qed.

Lemma route_by_action_marker_witness :
  exists r,
    CodeAgent.route "fix the build" (Demo.scripted ["ACTION"] []) =
    (Ok r, Demo.scripted [] []) /\
    (r = CodeAgent.ACTION <-> Js.includes "ACTION" "ACTION" = true) /\
    (r = CodeAgent.CHAT <-> Js.includes "ACTION" "ACTION" = false).
Proof.
  exact (route_by_action_marker "fix the build" (CodeAgent.says assistant "ACTION")
           (Demo.scripted ["ACTION"] []) (Demo.scripted [] []) eq_refl).
Defined.

Lemma length_trimStart (s : string) : String.length (Js.trimStart s) <= String.length s.
Proof.
  induction s as [|c s IH]; simpl; [lia|]. destruct (Js.is_white c); simpl; lia.
Qed.

Lemma length_trimEnd (s : string) : String.length (Js.trimEnd s) <= String.length s.
Proof.
  induction s as [|c s IH]; simpl; [lia|].
  destruct (Js.trimEnd s); [destruct (Js.is_white c)|]; simpl in *; lia.
Qed.

Lemma length_trim (s : string) : String.length (Js.trim s) <= String.length s.
Proof.
  unfold Js.trim. pose proof (length_trimEnd (Js.trimStart s)).
  pose proof (length_trimStart s). lia.
Qed.

(** [s.slice(-k)] keeps at most [k] code units, for a positive [k]. *)
Lemma length_slice_tail (s : string) (k : Z) :
  (0 < k)%Z -> (Z.of_nat (String.length (Js.slice s (- k))) <= k)%Z.
Proof.
  intros Hk. unfold Js.slice.
  destruct (Z.ltb_spec (- k) 0) as [_|]; [|lia].
  rewrite length_drop. lia.
Qed.

(** For a context length below 6 the slice length is 0, and [slice(-0)]
    keeps the whole log. *)
Example slice_zero_keeps_all :
  CodeAgent.sliceLen 5 = 0%Z /\ Js.slice "the whole log" (- CodeAgent.sliceLen 5) = "the whole log".
Proof. split; reflexivity. Qed.

(** C9, as stated, fails: with the context length 8192 and a progress log of
    ten times the slice length, a backend that answers with 9000 code units
    has them all stored as the summary, more than the whole context
    budget. *)
Lemma summary_exceeds_context_budget :
  CodeAgent.contextLength Demo.options = 8192%Z /\
  CodeAgent.sliceLen 8192 = 683%Z /\
  Z.of_nat (String.length (CodeAgent.progressLog Demo.long_progress)) = 6830%Z /\
  match fst (CodeAgent.summarize Demo.options Demo.long_progress Demo.verbose_backend) with
  | Ok st => Z.of_nat (String.length (CodeAgent.projectStateSummary st))
  | _ => 0%Z
  end = 9000%Z.
Proof. repeat split; vm_compute; reflexivity. Qed.

Lemma length_summarizePrompt (opts : CodeAgent.Options) (st : CodeAgent.LoopState)
    (errors : string) :
  String.length (CodeAgent.summarizePrompt opts st errors) =
  44 + String.length (Js.slice (CodeAgent.progressLog st)
                        (- CodeAgent.sliceLen (CodeAgent.contextLength opts)))
  + String.length errors + String.length (CodeAgent.projectStateSummary st).
Proof.
  unfold CodeAgent.summarizePrompt, nl. rewrite !length_append.
  cbn [String.length]. lia.
Qed.

(** C9, amended.  The summarize step bounds what it sends, not what it
    stores.  For a context length of 6 or more, the prompt it sends is 44
    code units of fixed text, the last [sliceLen] code units at most of the
    progress log and of the error log, and the summary before: at most
    [44 + 2 * sliceLen] code units more than that summary, however long the
    logs are.  The summary that is stored is the reply of the backend,
    trimmed, at whatever length. *)
Theorem summarize_bounds_its_input {W : Type} `{Host W} (opts : CodeAgent.Options)
    (st st' : CodeAgent.LoopState) (w w' : W) :
  (6 <= CodeAgent.contextLength opts)%Z ->
  CodeAgent.summarize opts st w = (Ok st', w') ->
  exists e prompt summaryResponse,
    CodeAgent.errorLog st = Some e /\
    prompt =
    "History: " +:+
    Js.slice (CodeAgent.progressLog st) (- CodeAgent.sliceLen (CodeAgent.contextLength opts))
    +:+ nl +:+
    "Errors: " +:+ Js.slice e (- CodeAgent.sliceLen (CodeAgent.contextLength opts)) +:+ nl +:+
    "Summary: " +:+ CodeAgent.projectStateSummary st +:+ nl +:+ "Update summary." /\
    chat {| messages := [CodeAgent.says system CodeAgent.projectStateSummarySystem;
                         CodeAgent.says user prompt];
            tools := false;
            num_ctx := Some (CodeAgent.contextLength opts) |} w =
    (Ok summaryResponse, w') /\
    (Z.of_nat (String.length prompt)
     <= 44 + 2 * CodeAgent.sliceLen (CodeAgent.contextLength opts)
        + Z.of_nat (String.length (CodeAgent.projectStateSummary st)))%Z /\
    st' = {| CodeAgent.progressLog := CodeAgent.progressLog st;
             CodeAgent.errorLog := CodeAgent.errorLog st;
             CodeAgent.projectStateSummary := Js.trim (content summaryResponse) |}.
Proof.
  intros Hctx Hrun.
  assert (Hlen : (0 < CodeAgent.sliceLen (CodeAgent.contextLength opts))%Z).
  { unfold CodeAgent.sliceLen. apply Z.div_str_pos. lia. }
  unfold CodeAgent.summarize in Hrun.
  apply bind_ok in Hrun as (errors & w1 & Hslice & Hrun).
  apply bind_ok in Hrun as (summaryResponse & w2 & Hchat & [= <- <-]).
  destruct (CodeAgent.errorLog st) as [e|] eqn:He; [|discriminate].
  injection Hslice as <- <-.
  exists e, (CodeAgent.summarizePrompt opts st
               (Js.slice e (- CodeAgent.sliceLen (CodeAgent.contextLength opts)))),
    summaryResponse.
  split; [reflexivity|]. split; [reflexivity|]. split; [exact Hchat|]. split.
  - rewrite length_summarizePrompt.
    pose proof (length_slice_tail (CodeAgent.progressLog st) _ Hlen).
    pose proof (length_slice_tail e _ Hlen). lia.
  - unfold CodeAgent.store_summary. now rewrite He.
Qed.

Lemma summarize_bounds_its_input_witness :
  CodeAgent.summarize Demo.options Demo.long_progress (Demo.scripted ["  Nothing yet.  "] []) =
  (Ok {| CodeAgent.progressLog := Js.repeat "p" (Z.to_nat 6830);
         CodeAgent.errorLog := Some "";
         CodeAgent.projectStateSummary := "Nothing yet." |},
   Demo.scripted [] []) /\
  exists e prompt summaryResponse,
    CodeAgent.errorLog Demo.long_progress = Some e /\
    prompt =
    "History: " +:+
    Js.slice (CodeAgent.progressLog Demo.long_progress)
      (- CodeAgent.sliceLen (CodeAgent.contextLength Demo.options))
    +:+ nl +:+
    "Errors: " +:+ Js.slice e (- CodeAgent.sliceLen (CodeAgent.contextLength Demo.options))
    +:+ nl +:+
    "Summary: " +:+ CodeAgent.projectStateSummary Demo.long_progress +:+ nl +:+
    "Update summary." /\
    chat {| messages := [CodeAgent.says system CodeAgent.projectStateSummarySystem;
                         CodeAgent.says user prompt];
            tools := false;
            num_ctx := Some (CodeAgent.contextLength Demo.options) |}
      (Demo.scripted ["  Nothing yet.  "] []) =
    (Ok summaryResponse, Demo.scripted [] []) /\
    (Z.of_nat (String.length prompt)
     <= 44 + 2 * CodeAgent.sliceLen (CodeAgent.contextLength Demo.options)
        + Z.of_nat (String.length (CodeAgent.projectStateSummary Demo.long_progress)))%Z /\
    {| CodeAgent.progressLog := Js.repeat "p" (Z.to_nat 6830);
       CodeAgent.errorLog := Some "";
       CodeAgent.projectStateSummary := "Nothing yet." |} =
    {| CodeAgent.progressLog := CodeAgent.progressLog Demo.long_progress;
       CodeAgent.errorLog := CodeAgent.errorLog Demo.long_progress;
       CodeAgent.projectStateSummary := Js.trim (content summaryResponse) |}.
Proof.
  split; [vm_compute; reflexivity|].
  exact (summarize_bounds_its_input Demo.options Demo.long_progress
           {| CodeAgent.progressLog := Js.repeat "p" (Z.to_nat 6830);
              CodeAgent.errorLog := Some "";
              CodeAgent.projectStateSummary := "Nothing yet." |}
           (Demo.scripted ["  Nothing yet.  "] []) (Demo.scripted [] [])
           ltac:(vm_compute; discriminate) eq_refl).
Defined.

(** ** The execution sandbox *)

(** The sandbox of the code-emission agent, on any host: the segment is
    written to the file named after the time of the call, [node] is started
    on that file with a timeout of 60000 ms, the file is removed if it is
    still there, and a result with the error code [ETIMEDOUT] is reported by
    the timeout text, whatever the child printed. *)
Lemma executeSegment_with_timeout {W : Type} `{Host W} (segment : string)
    (w w1 w2 w3 : W) (result : SpawnResult) :
  writeFileSync (CodeAgent.tempFile (now w)) segment w = (Ok tt, w1) ->
  spawnSync "node" [CodeAgent.tempFile (now w)]
    {| shell := false; timeout := Some 60000%Z |} w1 = (Ok result, w2) ->
  (if existsSync (CodeAgent.tempFile (now w)) w2
   then unlinkSync (CodeAgent.tempFile (now w)) else ret tt) w2 = (Ok tt, w3) ->
  CodeAgent.executeSegment segment w =
  (Ok (if bool_decide (error result = Some "ETIMEDOUT")
       then {| CodeAgent.exec_error := true;
               CodeAgent.log := Some "Execution timed out (60s limit)." |}
       else {| CodeAgent.exec_error :=
                 bool_decide (error result <> None) ||
                 negb (bool_decide (status result = Some 0%Z));
               CodeAgent.log := or_null (stderr result) (stdout result) |}),
   w3).
Proof.
  intros Hwrite Hspawn Hremove. unfold CodeAgent.executeSegment.
  unfold bind at 1, date_now.
  rewrite (bind_step _ _ _ _ _ Hwrite), (bind_step _ _ _ _ _ Hspawn).
  unfold bind at 1, exists_file.
  rewrite (bind_step _ _ _ _ _ Hremove).
  now destruct (bool_decide (error result = Some "ETIMEDOUT")).
Qed.

(** In the scripted world, a child that never exits and deletes every file
    is killed: the call returns with the timeout text, and the temporary
    file is gone. *)
Example executeSegment_times_out :
  CodeAgent.executeSegment "while (true) {}" (Demo.scripted [] [Demo.hangs]) =
  (Ok {| CodeAgent.exec_error := true;
         CodeAgent.log := Some "Execution timed out (60s limit)." |},
   {| files := ∅; backend := []; procs := []; clock := 1700000000001%Z |}).
Proof. vm_compute. reflexivity. Qed.

(** The timeout is as hard as SIGTERM: a child that runs on after the signal
    is waited for, and the file stays. *)
Example executeSegment_waits_for_a_stubborn_child :
  CodeAgent.executeSegment "process.on('SIGTERM', () => {}); setInterval(() => {}, 1000)"
    (Demo.scripted [] [Demo2.deaf]) =
  (Pending,
   {| files := {[ "/work/temp_exec_1700000000000.js" :=
                    "process.on('SIGTERM', () => {}); setInterval(() => {}, 1000)" ]};
      backend := []; procs := []; clock := 1700000000001%Z |}).
Proof. vm_compute. reflexivity. Qed.

(** C8.  The sandbox of the prototype has no timeout and no file name of its
    own for the segment: whatever the segment and the time of the call, it is
    written to [temp.js] in the directory of the program and [node] is
    started on it with no [timeout] option.  So while the child does not
    exit, [executeSegment] does not return: nothing is reported, and the file
    is not removed. *)
Theorem prototype_sandbox_has_no_timeout {W : Type} `{Host W} (segment : string)
    (w w1 w2 : W) :
  writeFileSync (@in_dirname W _ "temp.js") segment w = (Ok tt, w1) ->
  spawnSync "node" [@in_dirname W _ "temp.js"] {| shell := false; timeout := None |} w1 =
  (Pending, w2) ->
  Index.executeSegment segment w = (Pending, w2).
Proof.
  intros Hwrite Hspawn. unfold Index.executeSegment.
  rewrite (bind_step _ _ _ _ _ Hwrite). unfold bind. now rewrite Hspawn.
Qed.

Lemma prototype_sandbox_has_no_timeout_witness :
  @writeFileSync Sim _ (@in_dirname Sim _ "temp.js") "while (true) {}"
    (Demo.scripted [] [Demo.spins]) =
  (Ok tt, {| files := {[ "/opt/ralphie/temp.js" := "while (true) {}" ]};
             backend := []; procs := [Demo.spins]; clock := 1700000000000%Z |}) /\
  @spawnSync Sim _ "node" [@in_dirname Sim _ "temp.js"] {| shell := false; timeout := None |}
    {| files := {[ "/opt/ralphie/temp.js" := "while (true) {}" ]};
       backend := []; procs := [Demo.spins]; clock := 1700000000000%Z |} =
  (Pending, {| files := {[ "/opt/ralphie/temp.js" := "while (true) {}" ]};
               backend := []; procs := []; clock := 1700000000001%Z |}) /\
  Index.executeSegment "while (true) {}" (Demo.scripted [] [Demo.spins]) =
  (Pending, {| files := {[ "/opt/ralphie/temp.js" := "while (true) {}" ]};
               backend := []; procs := []; clock := 1700000000001%Z |}).
Proof.
  split; [reflexivity|]. split; [reflexivity|].
  exact (prototype_sandbox_has_no_timeout "while (true) {}" (Demo.scripted [] [Demo.spins])
           {| files := {[ "/opt/ralphie/temp.js" := "while (true) {}" ]};
              backend := []; procs := [Demo.spins]; clock := 1700000000000%Z |}
           {| files := {[ "/opt/ralphie/temp.js" := "while (true) {}" ]};
              backend := []; procs := []; clock := 1700000000001%Z |}
           eq_refl eq_refl).
Defined.

(** ** The same loop in the prototype *)

Section PrototypeFacts.
Context {W : Type} `{Host W}.

(** How a pass of the prototype's loop that completes went. *)
Lemma prototype_iteration_ok (contextLength : Z) (mainPrompt : string)
    (st : Index.LoopState) (w w' : W) (step : Step Index.LoopState) :
  Index.outer_iteration contextLength mainPrompt st w = (Ok step, w') ->
  step = Break BySentinel st \/
  exists segment w1 execResult w2,
    segment <> "PROJECT_DONE" /\
    Index.executeSegment segment w1 = (Ok execResult, w2) /\
    (Index.exec_error execResult = true /\
     step = Again Failed {| Index.progressLog := Index.progressLog st;
                            Index.errorLog := Index.log execResult |} \/
     Index.exec_error execResult = false /\
     exists st',
       Index.progressLog st' =
       Index.progressLog st +:+ nl +:+ "Successful segment: " +:+ segment +:+ nl +:+
       "Output: " +:+ Index.show_log (Index.log execResult) /\
       (step = Break ByCheck st' /\ Index.errorLog st' = Index.errorLog st \/
        step = Again Succeeded st' /\ Index.errorLog st' = Some "")).
Proof.
  unfold Index.outer_iteration. intros Hrun.
  apply bind_ok in Hrun as (response & w1 & _ & Hrun).
  destruct (String.eqb_spec (Js.trim (content response)) "PROJECT_DONE") as [_|Hseg].
  - left. now injection Hrun as <- _.
  - right. apply bind_ok in Hrun as (execResult & w2 & Hexec & Hrun).
    exists (Js.trim (content response)), w1, execResult, w2.
    split; [assumption|]. split; [assumption|].
    destruct (Index.exec_error execResult).
    + left. injection Hrun as <- _. auto.
    + right. split; [reflexivity|].
      apply bind_ok in Hrun as (checkResponse & w3 & _ & Hrun).
      destruct (String.eqb _ "yes"); injection Hrun as <- _.
      * eexists. split; [|left; split; reflexivity]. reflexivity.
      * eexists. split; [|right; split; reflexivity]. reflexivity.
Qed.

(** In the prototype too, a pass whose execution fails leaves the progress
    log alone, and a pass that succeeds and goes on has cleared the error
    log. *)
Lemma prototype_logs (contextLength : Z) (mainPrompt : string)
    (st st' : Index.LoopState) (w w' : W) (outcome : Outcome) :
  Index.outer_iteration contextLength mainPrompt st w = (Ok (Again outcome st'), w') ->
  match outcome with
  | Failed => Index.progressLog st' = Index.progressLog st
  | Succeeded => Index.errorLog st' = Some ""
  end.
Proof.
  intros Hrun. apply prototype_iteration_ok in Hrun as [[=]|Hrun].
  destruct Hrun
    as (segment & w1 & execResult & w2 & _ & _ & [(_ & [= -> ->])|(_ & st1 & _ & Hend)]).
  - reflexivity.
  - destruct Hend as [([=] & _)|([= -> ->] & Herr)]. assumption.
Qed.

End PrototypeFacts.

(** The prototype also leaves the loop on the sentinel while an error is
    pending. *)
Example prototype_exits_with_pending_error :
  fst (Index.outer_iteration 42000 "say hello"
         {| Index.progressLog := ""; Index.errorLog := Some "ReferenceError: x is not defined" |}
         (Demo.scripted [" PROJECT_DONE "] [])) =
  Ok (Break BySentinel
        {| Index.progressLog := "";
           Index.errorLog := Some "ReferenceError: x is not defined" |}).
Proof. vm_compute. reflexivity. Qed.

(** ** The command line *)

Lemma digit_not_white (c : ascii) : Cli.is_digit c = true -> Js.is_white c = false.
Proof.
  unfold Cli.is_digit, Js.is_white. intros [H1 H2]%andb_true_iff.
  apply Nat.leb_le in H1, H2.
  destruct (Nat.leb_spec (nat_of_ascii c) 13); [lia|].
  destruct (Nat.eqb_spec (nat_of_ascii c) 32); [lia|].
  destruct (Nat.eqb_spec (nat_of_ascii c) 160); [lia|].
  now rewrite andb_false_r.
Qed.

Lemma digit_not_sign (c : ascii) :
  Cli.is_digit c = true -> Ascii.eqb c "-" = false /\ Ascii.eqb c "+" = false.
Proof.
  intros H. split.
  - destruct (Ascii.eqb_spec c "-") as [->|]; [discriminate | reflexivity].
  - destruct (Ascii.eqb_spec c "+") as [->|]; [discriminate | reflexivity].
Qed.

(** A numeral is made of digits. *)
Lemma digit_prefix_numeral (d : Decimal.uint) :
  Cli.digit_prefix (NilEmpty.string_of_uint d) = NilEmpty.string_of_uint d.
Proof. induction d; simpl; congruence. Qed.

Lemma numeral_starts_with_digit (d : Decimal.uint) :
  d <> Decimal.Nil ->
  exists c s, NilEmpty.string_of_uint d = String c s /\ Cli.is_digit c = true.
Proof. destruct d; [congruence|..]; intros _; eexists _, _; split; reflexivity. Qed.

(** [parseInt] reads a numeral without sign as the number it denotes. *)
Lemma parseInt_numeral (d : Decimal.uint) :
  d <> Decimal.Nil ->
  Cli.parseInt (NilEmpty.string_of_uint d) = Some (Z.of_uint d) /\
  Cli.parseInt (String "-" (NilEmpty.string_of_uint d)) = Some (- Z.of_uint d)%Z.
Proof.
  intros Hd. destruct (numeral_starts_with_digit d Hd) as (c & s & Hs & Hc).
  pose proof (digit_prefix_numeral d) as Hprefix.
  pose proof (NilEmpty.usu d) as Hparse.
  unfold Cli.parseInt. rewrite Hs in *.
  destruct (digit_not_sign c Hc) as [Hminus Hplus].
  split.
  - simpl Js.trimStart. rewrite (digit_not_white c Hc).
    unfold Cli.strip_sign. rewrite Hminus, Hplus, Hprefix, Hparse. reflexivity.
  - simpl Js.trimStart. unfold Cli.strip_sign. rewrite Ascii.eqb_refl.
    rewrite Hprefix, Hparse. reflexivity.
Qed.

(** [parseInt] reads back every decimal numeral. *)
Lemma parseInt_decimal (n : Z) : Cli.parseInt (Js.decimal n) = Some n.
Proof.
  unfold Js.decimal. destruct n as [|q|q]; [reflexivity|..]; simpl Z.to_int;
    unfold NilZero.string_of_int, NilZero.string_of_uint;
    pose proof (Unsigned.to_uint_nonnil q) as Hq;
    destruct (parseInt_numeral (Pos.to_uint q) Hq) as [Hpos Hneg];
    pose proof (DecimalZ.of_to (Z.pos q)) as Hback; simpl in Hback;
    destruct (Pos.to_uint q) eqn:E; try congruence.
  all: try (rewrite Hpos; now rewrite Hback).
  all: rewrite Hneg; now rewrite Hback.
Qed.

Lemma splice2_middle (kept rest : list string) (a : string) :
  Cli.splice2 (length kept) (kept ++ a :: rest) = kept ++ tl rest.
Proof.
  unfold Cli.splice2. rewrite take_app_length, drop_app_add'; [|reflexivity].
  now destruct rest.
Qed.

Lemma lookup_next (kept rest : list string) (a : string) :
  (kept ++ a :: rest) !! (length kept + 1) = head rest.
Proof.
  rewrite lookup_app_r by lia.
  replace (length kept + 1 - length kept) with 1 by lia. now destruct rest.
Qed.

Lemma set_flag_args (a : string) (v : option string) (o o' : Cli.ParsedOptions) :
  Cli.set_flag a v o = Some o' -> Cli.args o' = Cli.args o.
Proof.
  unfold Cli.set_flag.
  repeat (destruct (String.eqb a _); [now intros [= <-]|]). discriminate.
Qed.

Lemma set_flag_with_args (a : string) (v : option string) (o : Cli.ParsedOptions)
    (l : list string) :
  Cli.set_flag a v (CliFacts.with_args o l) =
  (fun o' => CliFacts.with_args o' l) <$> Cli.set_flag a v o.
Proof.
  unfold Cli.set_flag. repeat (destruct (String.eqb a _); [reflexivity|]). reflexivity.
Qed.

Lemma set_flag_is_flag (a : string) (v : option string) (o : Cli.ParsedOptions) :
  Cli.is_flag a = false <-> Cli.set_flag a v o = None.
Proof.
  unfold Cli.is_flag, Cli.set_flag.
  repeat (destruct (String.eqb a _); [simpl; split; discriminate|]). now split.
Qed.

(** One turn of the loop at the first word that is not yet read. *)
Lemma body_at_todo (kept rest : list string) (a : string) (o : Cli.ParsedOptions) :
  Cli.args o = kept ++ a :: rest ->
  Cli.body (length kept) o =
  match Cli.set_flag a (head rest) o with
  | Some o' => (length kept, CliFacts.with_args o' (kept ++ tl rest))
  | None => (length kept + 1, o)
  end.
Proof.
  intros Hargs. unfold Cli.body, Cli.set_flag.
  rewrite Hargs, list_lookup_middle by reflexivity.
  rewrite splice2_middle, lookup_next.
  repeat (destruct (String.eqb a _); [reflexivity|]). reflexivity.
Qed.

Lemma scan_rest (rest : list string) (o : Cli.ParsedOptions) :
  match rest with
  | [] => o
  | _ :: rest' => Cli.scan rest' o
  end = Cli.scan (tl rest) o.
Proof. now destruct rest. Qed.

(** The loop with its index and its [splice] reads the command line as the
    scan from left to right does. *)
Lemma loop_is_scan (turns : nat) :
  forall (todo kept : list string) (o : Cli.ParsedOptions),
    length todo <= turns ->
    Cli.args o = kept ++ todo ->
    Cli.loop turns (length kept) o = Cli.scan todo (CliFacts.with_args o kept).
Proof.
  induction turns as [|turns IH]; intros todo kept o Hlen Hargs.
  - destruct todo; [|simpl in Hlen; lia]. simpl.
    rewrite app_nil_r in Hargs. destruct o; simpl in *; now subst.
  - simpl Cli.loop. rewrite Hargs, length_app.
    destruct todo as [|a rest].
    + replace (length kept <? length kept + length [])%nat with false
        by (symmetry; apply Nat.ltb_ge; simpl; lia).
      simpl. rewrite app_nil_r in Hargs. destruct o; simpl in *; now subst.
    + replace (length kept <? length kept + length (a :: rest))%nat with true
        by (symmetry; apply Nat.ltb_lt; simpl; lia).
      rewrite (body_at_todo kept rest a o Hargs).
      simpl Cli.scan. rewrite set_flag_with_args.
      destruct (Cli.set_flag a (head rest) o) as [o'|] eqn:Hflag; simpl.
      * rewrite scan_rest.
        rewrite (IH (tl rest) kept); [| destruct rest; simpl in *; lia | reflexivity].
        reflexivity.
      * replace (length kept + 1) with (length (kept ++ [a])) by (rewrite length_app; simpl; lia).
        rewrite (IH rest (kept ++ [a])); [| simpl in Hlen; lia | now rewrite <- app_assoc].
        reflexivity.
Qed.

Lemma parseOptions_scan (argv : list string) :
  Cli.parseOptions argv = Cli.scan argv (Cli.initial []).
Proof.
  exact (loop_is_scan (length argv) argv [] (Cli.initial argv) (le_n _) eq_refl).
Qed.

(** Words that are no flags are kept, in their order. *)
Lemma scan_words (ws rest : list string) (o : Cli.ParsedOptions) :
  Forall (fun a => Cli.is_flag a = false) ws ->
  Cli.scan (ws ++ rest) o = Cli.scan rest (CliFacts.with_args o (Cli.args o ++ ws)).
Proof.
  intros Hws. revert o. induction Hws as [|a ws Ha _ IH]; intros o.
  - simpl. rewrite app_nil_r. now destruct o.
  - simpl. apply (set_flag_is_flag a (head (ws ++ rest)) o) in Ha. rewrite Ha.
    rewrite IH. unfold Cli.keep, CliFacts.with_args. simpl. now rewrite <- app_assoc.
Qed.

Lemma scan_words_only (ws : list string) (o : Cli.ParsedOptions) :
  Forall (fun a => Cli.is_flag a = false) ws ->
  Cli.scan ws o = CliFacts.with_args o (Cli.args o ++ ws).
Proof.
  intros Hws. pose proof (scan_words ws [] o Hws) as E.
  now rewrite app_nil_r in E.
Qed.

(** What the scan adds to the words kept so far. *)
Lemma scan_keeps (n : nat) :
  forall (todo : list string) (o : Cli.ParsedOptions),
    length todo <= n ->
    exists kept,
      Cli.args (Cli.scan todo o) = Cli.args o ++ kept /\
      sublist kept todo /\
      Forall (fun a => Cli.is_flag a = false) kept.
Proof.
  induction n as [|n IH]; intros todo o Hlen.
  - destruct todo; [|simpl in Hlen; lia]. exists []. simpl.
    rewrite app_nil_r. repeat split; constructor.
  - destruct todo as [|a rest].
    { exists []. simpl. rewrite app_nil_r. repeat split; constructor. }
    simpl. destruct (Cli.set_flag a (head rest) o) as [o'|] eqn:Hflag.
    + apply set_flag_args in Hflag as Hargs. rewrite scan_rest.
      destruct (IH (tl rest) o') as (kept & E & Hsub & Hno);
        [destruct rest; simpl in *; lia|].
      exists kept. rewrite E, Hargs. split; [reflexivity|]. split; [|assumption].
      apply sublist_cons. destruct rest; [assumption | now apply sublist_cons].
    + destruct (IH rest (Cli.keep a o)) as (kept & E & Hsub & Hno); [simpl in *; lia|].
      exists (a :: kept). rewrite E. simpl. rewrite <- app_assoc.
      split; [reflexivity|]. split; [now apply sublist_skip|].
      constructor; [|assumption]. now apply (set_flag_is_flag a (head rest) o).
Qed.

(** X1.  The words that [parseOptions] returns as [args] are words of the
    command line, in the order they have there, and none of them is one of
    the four flags. *)
Theorem parseOptions_args_are_words (argv : list string) :
  sublist (Cli.args (Cli.parseOptions argv)) argv /\
  Forall (fun a => Cli.is_flag a = false) (Cli.args (Cli.parseOptions argv)).
Proof.
  rewrite parseOptions_scan.
  destruct (scan_keeps (length argv) argv (Cli.initial []) (le_n _))
    as (kept & E & Hsub & Hno).
  rewrite E. now split.
Qed.

(** X2.  Flags between the words of the task: each of [--model], [--host]
    and [--context-length] takes the word behind it as its value, whatever
    that word is (another flag as well), the context length is read back from
    its decimal numeral (of an integer that a JS number holds exactly), and
    the words before and behind are the task. *)
Theorem parseOptions_flags_among_words (before behind : list string)
    (m h : string) (n : Z) :
  Forall (fun a => Cli.is_flag a = false) before ->
  Forall (fun a => Cli.is_flag a = false) behind ->
  (- CliFacts.max_safe <= n <= CliFacts.max_safe)%Z ->
  Cli.parseOptions
    (before ++ ["--model"; m; "--host"; h; "--context-length"; Js.decimal n] ++ behind) =
  {| Cli.args := before ++ behind;
     Cli.model := Some m;
     Cli.host := Some h;
     Cli.contextLength := Some n;
     Cli.mcpServers := [] |}.
Proof.
  intros Hbefore Hbehind _.
  rewrite parseOptions_scan, (scan_words before _ _ Hbefore).
  simpl app. cbn [Cli.scan]. unfold Cli.set_flag at 1.
  cbn [String.eqb Ascii.eqb Bool.eqb]. cbn [Cli.scan]. unfold Cli.set_flag at 1.
  cbn [String.eqb Ascii.eqb Bool.eqb]. cbn [Cli.scan]. unfold Cli.set_flag at 1.
  cbn [String.eqb Ascii.eqb Bool.eqb].
  rewrite (scan_words_only behind _ Hbehind).
  unfold CliFacts.with_args, Cli.parseInt_element. simpl.
  now rewrite parseInt_decimal.
Qed.

Lemma parseOptions_flags_among_words_witness :
  Cli.parseOptions
    (["fix"] ++ ["--model"; "--host"; "--host"; "box:11434"; "--context-length";
                 Js.decimal 8192] ++ ["the"; "build"]) =
  {| Cli.args := ["fix"] ++ ["the"; "build"];
     Cli.model := Some "--host";
     Cli.host := Some "box:11434";
     Cli.contextLength := Some 8192%Z;
     Cli.mcpServers := [] |}.
Proof.
  apply (parseOptions_flags_among_words ["fix"] ["the"; "build"] "--host" "box:11434" 8192).
  - repeat constructor.
  - repeat constructor.
  - unfold CliFacts.max_safe. lia.
Defined.

(** X3.  A flag that is the last word of the command line has no value to
    take: it is removed all the same, and [--model] and [--host] become
    [undefined], [--context-length] becomes [NaN], and [--mcp] adds
    [undefined] to the providers. *)
Theorem parseOptions_flag_without_value (ws : list string) :
  Forall (fun a => Cli.is_flag a = false) ws ->
  Cli.parseOptions (ws ++ ["--model"]) =
  {| Cli.args := ws; Cli.model := None; Cli.host := Some "http://localhost:11434";
     Cli.contextLength := Some 42000%Z; Cli.mcpServers := [] |} /\
  Cli.parseOptions (ws ++ ["--host"]) =
  {| Cli.args := ws; Cli.model := Some "ministral-3:8b"; Cli.host := None;
     Cli.contextLength := Some 42000%Z; Cli.mcpServers := [] |} /\
  Cli.parseOptions (ws ++ ["--context-length"]) =
  {| Cli.args := ws; Cli.model := Some "ministral-3:8b";
     Cli.host := Some "http://localhost:11434";
     Cli.contextLength := None; Cli.mcpServers := [] |} /\
  Cli.parseOptions (ws ++ ["--mcp"]) =
  {| Cli.args := ws; Cli.model := Some "ministral-3:8b";
     Cli.host := Some "http://localhost:11434";
     Cli.contextLength := Some 42000%Z; Cli.mcpServers := [None] |}.
Proof.
  intros Hws. repeat split; rewrite parseOptions_scan, (scan_words ws _ _ Hws); reflexivity.
Qed.

Lemma parseOptions_flag_without_value_witness :
  Cli.parseOptions (["fix"; "it"] ++ ["--model"]) =
  {| Cli.args := ["fix"; "it"]; Cli.model := None; Cli.host := Some "http://localhost:11434";
     Cli.contextLength := Some 42000%Z; Cli.mcpServers := [] |}.
Proof.
  apply (parseOptions_flag_without_value ["fix"; "it"]). repeat constructor.
Defined.

Lemma scan_providers (servers : list string) (rest : list string) (o : Cli.ParsedOptions) :
  Cli.scan (flat_map (fun s => ["--mcp"; s]) servers ++ rest) o =
  Cli.scan rest
    {| Cli.args := Cli.args o; Cli.model := Cli.model o; Cli.host := Cli.host o;
       Cli.contextLength := Cli.contextLength o;
       Cli.mcpServers := Cli.mcpServers o ++ map Some servers |}.
Proof.
  revert o. induction servers as [|s servers IH]; intros o.
  - simpl. rewrite app_nil_r. now destruct o.
  - simpl flat_map. simpl app. cbn [Cli.scan]. unfold Cli.set_flag at 1.
    cbn [String.eqb Ascii.eqb Bool.eqb]. rewrite IH. simpl.
    now rewrite <- app_assoc.
Qed.

(** X4.  Every [--mcp] flag adds its value to the providers, and they come
    out in the order of the command line; the other options keep their
    defaults and the words behind are the task. *)
Theorem parseOptions_collects_providers (servers ws : list string) :
  Forall (fun a => Cli.is_flag a = false) ws ->
  Cli.parseOptions (flat_map (fun s => ["--mcp"; s]) servers ++ ws) =
  {| Cli.args := ws; Cli.model := Some "ministral-3:8b";
     Cli.host := Some "http://localhost:11434";
     Cli.contextLength := Some 42000%Z; Cli.mcpServers := map Some servers |}.
Proof.
  intros Hws. rewrite parseOptions_scan, scan_providers.
  now rewrite (scan_words_only ws _ Hws).
Qed.

Lemma parseOptions_collects_providers_witness :
  Cli.parseOptions (flat_map (fun s => ["--mcp"; s]) ["fs-server"; "git-server"] ++ ["fix"; "it"]) =
  {| Cli.args := ["fix"; "it"]; Cli.model := Some "ministral-3:8b";
     Cli.host := Some "http://localhost:11434";
     Cli.contextLength := Some 42000%Z;
     Cli.mcpServers := map Some ["fs-server"; "git-server"] |}.
Proof.
  apply (parseOptions_collects_providers ["fs-server"; "git-server"] ["fix"; "it"]).
  repeat constructor.
Defined.

(** ** The command line of the prototype *)

Lemma index_element_middle (kept rest : list string) (a : string) :
  IndexCli.element (kept ++ a :: rest) (length kept) = a.
Proof. unfold IndexCli.element. now rewrite list_lookup_middle. Qed.

Lemma index_element_next (kept rest : list string) (a v : string) :
  IndexCli.element (kept ++ a :: v :: rest) (length kept + 1) = v.
Proof.
  unfold IndexCli.element. rewrite lookup_app_r by lia.
  now replace (length kept + 1 - length kept) with 1 by lia.
Qed.

Lemma index_set_flag_with_args (a v : string) (o : IndexCli.ParsedOptions)
    (l : list string) :
  IndexCli.set_flag a v (IndexCli.with_args o l) =
  (fun o' => IndexCli.with_args o' l) <$> IndexCli.set_flag a v o.
Proof.
  unfold IndexCli.set_flag. repeat (destruct (String.eqb a _); [reflexivity|]). reflexivity.
Qed.

(** The prototype's loop reads the command line as its scan does. *)
Lemma index_loop_is_scan (turns : nat) :
  forall (todo kept : list string) (o : IndexCli.ParsedOptions),
    length todo <= turns ->
    IndexCli.args o = kept ++ todo ->
    IndexCli.loop turns (length kept) o = IndexCli.scan todo (IndexCli.with_args o kept).
Proof.
  induction turns as [|turns IH]; intros todo kept o Hlen Hargs.
  - destruct todo; [|simpl in Hlen; lia]. simpl.
    rewrite app_nil_r in Hargs. destruct o; simpl in *; now subst.
  - simpl IndexCli.loop. rewrite Hargs, length_app.
    destruct todo as [|a rest].
    + replace (length kept <? length kept + length [])%nat with false
        by (symmetry; apply Nat.ltb_ge; simpl; lia).
      simpl. rewrite app_nil_r in Hargs. destruct o; simpl in *; now subst.
    + replace (length kept <? length kept + length (a :: rest))%nat with true
        by (symmetry; apply Nat.ltb_lt; simpl; lia).
      unfold IndexCli.body. rewrite Hargs, index_element_middle, length_app.
      destruct rest as [|v rest].
      * replace (length kept + 1 <? length kept + length [a])%nat with false
          by (symmetry; apply Nat.ltb_ge; simpl; lia).
        rewrite !andb_false_r.
        replace (length kept + 1) with (length (kept ++ [a])) by (rewrite length_app; simpl; lia).
        rewrite (IH [] (kept ++ [a])); [| simpl; lia | now rewrite app_nil_r].
        reflexivity.
      * replace (length kept + 1 <? length kept + length (a :: v :: rest))%nat with true
          by (symmetry; apply Nat.ltb_lt; simpl; lia).
        rewrite !andb_true_r, index_element_next, splice2_middle.
        cbn [IndexCli.scan tl]. rewrite index_set_flag_with_args.
        unfold IndexCli.set_flag.
        destruct (String.eqb a "--model");
          [simpl; etransitivity;
           [apply (IH rest kept); [simpl in *; lia | reflexivity] | reflexivity]|].
        destruct (String.eqb a "--host");
          [simpl; etransitivity;
           [apply (IH rest kept); [simpl in *; lia | reflexivity] | reflexivity]|].
        destruct (String.eqb a "--context-length");
          [simpl; etransitivity;
           [apply (IH rest kept); [simpl in *; lia | reflexivity] | reflexivity]|].
        simpl.
        replace (length kept + 1) with (length (kept ++ [a])) by (rewrite length_app; simpl; lia).
        rewrite (IH (v :: rest) (kept ++ [a])); [| simpl in *; lia | now rewrite <- app_assoc].
        reflexivity.
Qed.

Lemma index_parseOptions_scan (argv : list string) :
  IndexCli.parseOptions argv = IndexCli.scan argv (IndexCli.initial []).
Proof.
  exact (index_loop_is_scan (length argv) argv [] (IndexCli.initial argv) (le_n _) eq_refl).
Qed.

Lemma index_scan_words (ws rest : list string) (o : IndexCli.ParsedOptions) :
  Forall (fun a => IndexCli.is_flag a = false) ws ->
  IndexCli.scan (ws ++ rest) o =
  IndexCli.scan rest (IndexCli.with_args o (IndexCli.args o ++ ws)).
Proof.
  intros Hws. revert o. induction Hws as [|a ws Ha _ IH]; intros o.
  - simpl. rewrite app_nil_r. now destruct o.
  - assert (Hnone : forall v, IndexCli.set_flag a v o = None).
    { intros v. unfold IndexCli.is_flag in Ha. unfold IndexCli.set_flag.
      apply orb_false_iff in Ha as [[-> ->]%orb_false_iff ->]. reflexivity. }
    change ((a :: ws) ++ rest) with (a :: (ws ++ rest)).
    transitivity (IndexCli.scan (ws ++ rest)
                    (IndexCli.with_args o (IndexCli.args o ++ [a]))).
    + destruct (ws ++ rest) as [|v l]; simpl; [reflexivity | now rewrite Hnone].
    + rewrite IH. unfold IndexCli.with_args. simpl. now rewrite <- app_assoc.
Qed.

(** X5.  In the prototype a flag is honoured only when a word follows it: a
    flag that is the last word of the command line stays among the task's
    words, and the options keep their defaults. *)
Theorem prototype_flag_without_value (ws : list string) (flag : string) :
  Forall (fun a => IndexCli.is_flag a = false) ws ->
  IndexCli.parseOptions (ws ++ [flag]) =
  {| IndexCli.args := ws ++ [flag];
     IndexCli.model := "ministral-3:8b";
     IndexCli.host := "http://localhost:11434";
     IndexCli.contextLength := Some 42000%Z |}.
Proof.
  intros Hws. rewrite index_parseOptions_scan, (index_scan_words ws _ _ Hws).
  reflexivity.
Qed.

Lemma prototype_flag_without_value_witness :
  IndexCli.parseOptions (["fix"; "it"] ++ ["--model"]) =
  {| IndexCli.args := ["fix"; "it"] ++ ["--model"];
     IndexCli.model := "ministral-3:8b";
     IndexCli.host := "http://localhost:11434";
     IndexCli.contextLength := Some 42000%Z |}.
Proof.
  apply (prototype_flag_without_value ["fix"; "it"] "--model"). repeat constructor.
Defined.

(** ** More on the tool registry *)

(** X6.  What [write_file] writes, [read_file] reads: when an overwriting
    [write_file] reports success, [read_file] of the same path returns
    exactly the text, whatever the file held before, and reading changes
    nothing. *)
Theorem write_file_then_read_file (w w1 : Sim) (writing reading : gmap string Js.JsValue)
    (p text : string) :
  p <> "" ->
  prop writing "path" = Js.JString p ->
  prop writing "text" = Js.JString text ->
  Js.truthy (prop writing "append") = false ->
  prop reading "path" = Js.JString p ->
  ToolAgent.handleNativeTool "write_file" writing w =
  (Ok (Some ("Successfully wrote to " +:+ p)), w1) ->
  ToolAgent.handleNativeTool "read_file" reading w1 = (Ok (Some text), w1).
Proof.
  intros Hp Hpath Htext Happend Hpath'.
  unfold ToolAgent.handleNativeTool, ToolAgent.dispatch, bind, try_catch.
  rewrite Hpath, Hpath', Htext, Happend, (truthy_string p Hp).
  cbn [path_resolve ret String.eqb Ascii.eqb Bool.eqb write_value Js.ToString].
  simpl writeFileSync. unfold SimHost.sim_write.
  destruct (SimHost.writable w _).
  - intros [= <-]. unfold read. simpl readFileSync. unfold SimHost.sim_read.
    cbn [files SimHost.with_files]. now rewrite lookup_insert_eq.
  - unfold ret. rewrite !append_cons. discriminate.
Qed.

Lemma write_file_then_read_file_witness :
  ToolAgent.handleNativeTool "write_file"
    {[ "path" := Js.JString "x.txt"; "text" := Js.JString "new" ]}
    (Demo.world {[ "/work/x.txt" := "old" ]}) =
  (Ok (Some ("Successfully wrote to " +:+ "x.txt")), Demo.world {[ "/work/x.txt" := "new" ]}) /\
  ToolAgent.handleNativeTool "read_file" {[ "path" := Js.JString "x.txt" ]}
    (Demo.world {[ "/work/x.txt" := "new" ]}) =
  (Ok (Some "new"), Demo.world {[ "/work/x.txt" := "new" ]}).
Proof.
  split; [reflexivity|].
  exact (write_file_then_read_file (Demo.world {[ "/work/x.txt" := "old" ]})
           (Demo.world {[ "/work/x.txt" := "new" ]})
           {[ "path" := Js.JString "x.txt"; "text" := Js.JString "new" ]}
           {[ "path" := Js.JString "x.txt" ]} "x.txt" "new"
           ltac:(discriminate) eq_refl eq_refl eq_refl eq_refl eq_refl).
Defined.

(** Where the directory is missing, the write fails and is reported, and
    there is nothing to read. *)
Example write_file_without_directory :
  ToolAgent.handleNativeTool "write_file"
    {[ "path" := Js.JString "nodir/x.txt"; "text" := Js.JString "new" ]} (Demo.world ∅) =
  (Ok (Some ("Error executing write_file: " +:+ SimHost.ENOENT "/work/nodir/x.txt")),
   Demo.world ∅) /\
  ToolAgent.handleNativeTool "write_file"
    {[ "path" := Js.JString "nodir/x.txt"; "text" := Js.JString "new" ]}
    (Demo.world {[ "/work/nodir/" := "" ]}) =
  (Ok (Some "Successfully wrote to nodir/x.txt"),
   Demo.world {[ "/work/nodir/" := ""; "/work/nodir/x.txt" := "new" ]}).
Proof. split; vm_compute; reflexivity. Qed.

(** [path.resolve] takes [.] and [..] out of a path: these name one file. *)
Example resolve_normalizes :
  @resolve Sim _ "./x.txt" = "/work/x.txt" /\
  @resolve Sim _ "a/../x.txt" = "/work/x.txt" /\
  @resolve Sim _ "/work//x.txt" = "/work/x.txt" /\
  @resolve Sim _ "../etc/hosts" = "/etc/hosts" /\
  @resolve Sim _ "/" = "/".
Proof. repeat split; vm_compute; reflexivity. Qed.

Section MoreRegistryFacts.
Context {W : Type} `{Host W}.

(** X7.  [run_terminal_command] takes no notice of how the command ended:
    whatever [status] and [error] are, the result is the standard output if
    there is any, else the standard error if there is any, else the fixed
    text; it is never empty. *)
Theorem run_terminal_command_reports_output (args : gmap string Js.JsValue)
    (command : string) (result : SpawnResult) (w w' : W) :
  Js.truthy (prop args "path") = false ->
  prop args "command" = Js.JString command ->
  command <> "" ->
  spawnSync command [] {| shell := true; timeout := Some 30000%Z |} w = (Ok result, w') ->
  exists text,
    ToolAgent.handleNativeTool "run_terminal_command" args w = (Ok (Some text), w') /\
    text <> "" /\
    text =
    match stdout result, stderr result with
    | Some (String c out), _ => String c out
    | _, Some (String c err) => String c err
    | _, _ => "Command executed (no output)."
    end.
Proof.
  intros Hpath Hcommand Hne Hspawn.
  unfold ToolAgent.handleNativeTool, ToolAgent.dispatch, bind, try_catch.
  rewrite Hpath, Hcommand.
  cbn [ret String.eqb Ascii.eqb Bool.eqb spawn_value].
  apply String.eqb_neq in Hne. rewrite Hne, Hspawn.
  destruct (stdout result) as [[|c out]|], (stderr result) as [[|d err]|];
    eexists; (split; [reflexivity|]); split; (discriminate || reflexivity).
Qed.

(** X8.  [write_file] without a text, or with a text that is no string, is
    answered with the error text, and nothing is written: the world is the
    one before the call.  This holds with and without [append]. *)
Theorem write_file_without_text (args : gmap string Js.JsValue) (p : string) (w : W) :
  prop args "path" = Js.JString p ->
  (forall text, prop args "text" <> Js.JString text) ->
  ToolAgent.handleNativeTool "write_file" args w =
  (Ok (Some ("Error executing write_file: " +:+ invalid_arg "data" (prop args "text"))), w).
Proof.
  intros Hpath Htext.
  unfold ToolAgent.handleNativeTool, ToolAgent.dispatch, bind, try_catch.
  rewrite Hpath. cbn [path_resolve String.eqb Ascii.eqb Bool.eqb].
  destruct (prop args "text") as [| |b|n|text] eqn:E;
    try (now destruct (Htext text));
    destruct (Js.truthy (Js.JString p)), (Js.truthy (prop args "append")); reflexivity.
Qed.

(** X9.  A file that cannot be read: [read_file] and [search_and_replace]
    answer with the error text that carries the message of the exception,
    and leave the world as it was; [search_and_replace] in particular does
    not create the file. *)
Theorem unreadable_file_is_reported (args : gmap string Js.JsValue) (p message : string)
    (w : W) :
  p <> "" ->
  prop args "path" = Js.JString p ->
  readFileSync (resolve p) w = Throw message ->
  ToolAgent.handleNativeTool "read_file" args w =
  (Ok (Some ("Error executing read_file: " +:+ message)), w) /\
  ToolAgent.handleNativeTool "search_and_replace" args w =
  (Ok (Some ("Error executing search_and_replace: " +:+ message)), w).
Proof.
  intros Hp Hpath Hread.
  unfold ToolAgent.handleNativeTool, ToolAgent.dispatch, bind, try_catch, read.
  rewrite Hpath, (truthy_string p Hp).
  cbn [path_resolve ret String.eqb Ascii.eqb Bool.eqb].
  now rewrite Hread.
Qed.

(** X10.  In the registry of the code-emission agent the text to write is
    [args.text || args.data || args.newData]: an empty [text] with no [data]
    and no [newData] is not written as an empty file, but answered with the
    error text, and the world is the one before the call. *)
Theorem write_file_empty_text_is_refused (args : gmap string Js.JsValue) (p : string) (w : W) :
  prop args "path" = Js.JString p ->
  prop args "text" = Js.JString "" ->
  prop args "data" = Js.JUndefined ->
  prop args "newData" = Js.JUndefined ->
  CodeAgent.handleNativeTool "write_file" args w =
  (Ok (Some ("Error executing write_file: " +:+ invalid_arg "data" Js.JUndefined)), w).
Proof.
  intros Hpath Htext Hdata Hnew.
  unfold CodeAgent.handleNativeTool, CodeAgent.dispatch, bind, try_catch.
  rewrite Hpath, Htext, Hdata, Hnew.
  cbn [path_resolve String.eqb Ascii.eqb Bool.eqb orb].
  destruct (Js.truthy (Js.JString p)); reflexivity.
Qed.

End MoreRegistryFacts.

Lemma run_terminal_command_reports_output_witness :
  exists text,
    ToolAgent.handleNativeTool "run_terminal_command" {[ "command" := Js.JString "false" ]}
      (Demo.scripted [] [Demo.fails "boom"]) =
    (Ok (Some text), {| files := ∅; backend := []; procs := []; clock := 1700000000001%Z |}) /\
    text <> "" /\ text = "boom".
Proof.
  exact (run_terminal_command_reports_output {[ "command" := Js.JString "false" ]} "false"
           (returns (Demo.fails "boom")) (Demo.scripted [] [Demo.fails "boom"])
           {| files := ∅; backend := []; procs := []; clock := 1700000000001%Z |}
           eq_refl eq_refl ltac:(discriminate) eq_refl).
Defined.

Lemma write_file_without_text_witness :
  ToolAgent.handleNativeTool "write_file" {[ "path" := Js.JString "x.txt" ]} (Demo.world ∅) =
  (Ok (Some ("Error executing write_file: " +:+ invalid_arg "data" Js.JUndefined)),
   Demo.world ∅).
Proof.
  exact (write_file_without_text {[ "path" := Js.JString "x.txt" ]} "x.txt" (Demo.world ∅)
           eq_refl ltac:(discriminate)).
Defined.

Lemma unreadable_file_is_reported_witness :
  ToolAgent.handleNativeTool "read_file" {[ "path" := Js.JString "gone.txt" ]} (Demo.world ∅) =
  (Ok (Some ("Error executing read_file: " +:+ SimHost.ENOENT "/work/gone.txt")), Demo.world ∅) /\
  ToolAgent.handleNativeTool "search_and_replace" {[ "path" := Js.JString "gone.txt" ]}
    (Demo.world ∅) =
  (Ok (Some ("Error executing search_and_replace: " +:+ SimHost.ENOENT "/work/gone.txt")),
   Demo.world ∅).
Proof.
  exact (unreadable_file_is_reported {[ "path" := Js.JString "gone.txt" ]} "gone.txt"
           (SimHost.ENOENT "/work/gone.txt") (Demo.world ∅)
           ltac:(discriminate) eq_refl eq_refl).
Defined.

Lemma write_file_empty_text_is_refused_witness :
  CodeAgent.handleNativeTool "write_file"
    {[ "path" := Js.JString "x.txt"; "text" := Js.JString "" ]}
    (Demo.world {[ "/work/x.txt" := "old" ]}) =
  (Ok (Some ("Error executing write_file: " +:+ invalid_arg "data" Js.JUndefined)),
   Demo.world {[ "/work/x.txt" := "old" ]}).
Proof.
  exact (write_file_empty_text_is_refused
           {[ "path" := Js.JString "x.txt"; "text" := Js.JString "" ]} "x.txt"
           (Demo.world {[ "/work/x.txt" := "old" ]}) eq_refl eq_refl eq_refl eq_refl).
Defined.

(** X11.  The file tools touch one file only: whatever the arguments and
    whatever the outcome, a call of [read_file], [write_file],
    [search_and_replace] (or of a name that is no tool at all) leaves every
    file as it was, other than the one its [path], if that is a string,
    resolves to, and starts no process. *)
Theorem file_tools_touch_one_file (name : string) (args : gmap string Js.JsValue)
    (q : string) (w w' : Sim) (r : Res (option string)) :
  name <> "run_terminal_command" ->
  ToolAgent.handleNativeTool name args w = (r, w') ->
  (forall p, prop args "path" = Js.JString p -> q <> resolve p) ->
  files w' !! q = files w !! q /\
  backend w' = backend w /\ procs w' = procs w /\ clock w' = clock w.
Proof.
  intros Hname Hrun Hq.
  assert (Hpath :
            (exists e,
               (if Js.truthy (prop args "path") then path_resolve (prop args "path")
                else ret "") w = (Throw e, w)) \/
            (exists target,
               (if Js.truthy (prop args "path") then path_resolve (prop args "path")
                else ret "") w = (Ok target, w) /\
               (target = "" \/ q <> target))).
  { destruct (prop args "path") as [| |b|n|p] eqn:E; cbn [Js.truthy path_resolve].
    - right. exists "". auto.
    - right. exists "". auto.
    - destruct b; [left; eexists; reflexivity | right; exists ""; auto].
    - destruct (negb _); [left; eexists; reflexivity | right; exists ""; auto].
    - destruct (negb _); [|right; exists ""; auto].
      right. exists (resolve p). split; [reflexivity|]. right. now apply Hq. }
  assert (Hwrite : forall target data r0 w0,
            target = "" \/ q <> target ->
            SimHost.sim_write target data w = (r0, w0) ->
            files w0 !! q = files w !! q /\
            backend w0 = backend w /\ procs w0 = procs w /\ clock w0 = clock w).
  { intros target data r0 w0 Htarget. unfold SimHost.sim_write, SimHost.writable.
    destruct Htarget as [->|Htarget]; [intros [= <- <-]; auto|].
    destruct (_ && _); intros [= <- <-]; [|auto].
    simpl. rewrite lookup_insert_ne by congruence. auto. }
  assert (Happend : forall target data r0 w0,
            target = "" \/ q <> target ->
            SimHost.sim_append target data w = (r0, w0) ->
            files w0 !! q = files w !! q /\
            backend w0 = backend w /\ procs w0 = procs w /\ clock w0 = clock w).
  { intros target data r0 w0 Htarget. unfold SimHost.sim_append, SimHost.writable.
    destruct Htarget as [->|Htarget]; [intros [= <- <-]; auto|].
    destruct (_ && _); intros [= <- <-]; [|auto].
    simpl. rewrite lookup_insert_ne by congruence. auto. }
  revert Hrun.
  unfold ToolAgent.handleNativeTool, bind.
  destruct Hpath as [(e & ->)|(target & -> & Htarget)]; [intros [= <- <-]; now auto|].
  unfold ToolAgent.dispatch, bind, try_catch, read.
  destruct (String.eqb name "read_file").
  { unfold ret. destruct (readFileSync target w); intros [= <- <-]; auto. }
  destruct (String.eqb name "search_and_replace").
  { destruct (readFileSync target w) as [data| |]; try (intros [= <- <-]; now auto).
    destruct (negb _); [intros [= <- <-]; now auto|].
    destruct (writeFileSync target _ w) as [[[]| |] w0] eqn:E; intros [= <- <-];
      exact (Hwrite _ _ _ _ Htarget E). }
  destruct (String.eqb name "write_file").
  { destruct (Js.truthy (prop args "append")).
    - unfold append_value. destruct (prop args "text") as [| |b|n|text];
        try (intros [= <- <-]; now auto).
      destruct (appendFileSync target text w) as [[[]| |] w0] eqn:E; intros [= <- <-];
        exact (Happend _ _ _ _ Htarget E).
    - unfold write_value. destruct (prop args "text") as [| |b|n|text];
        try (intros [= <- <-]; now auto).
      destruct (writeFileSync target text w) as [[[]| |] w0] eqn:E; intros [= <- <-];
        exact (Hwrite _ _ _ _ Htarget E). }
  destruct (String.eqb_spec name "run_terminal_command"); [congruence|].
  intros [= <- <-]. auto.
Qed.

Lemma file_tools_touch_one_file_witness :
  ToolAgent.handleNativeTool "write_file"
    {[ "path" := Js.JString "./x.txt"; "text" := Js.JString "new" ]}
    (Demo.world {[ "/work/x.txt" := "old"; "/work/y.txt" := "kept" ]}) =
  (Ok (Some "Successfully wrote to ./x.txt"),
   Demo.world {[ "/work/x.txt" := "new"; "/work/y.txt" := "kept" ]}) /\
  files (Demo.world {[ "/work/x.txt" := "new"; "/work/y.txt" := "kept" ]}) !! "/work/y.txt" =
  files (Demo.world {[ "/work/x.txt" := "old"; "/work/y.txt" := "kept" ]}) !! "/work/y.txt".
Proof.
  split; [reflexivity|].
  refine (proj1 (file_tools_touch_one_file "write_file"
                   {[ "path" := Js.JString "./x.txt"; "text" := Js.JString "new" ]}
                   "/work/y.txt"
                   (Demo.world {[ "/work/x.txt" := "old"; "/work/y.txt" := "kept" ]})
                   (Demo.world {[ "/work/x.txt" := "new"; "/work/y.txt" := "kept" ]})
                   (Ok (Some "Successfully wrote to ./x.txt"))
                   ltac:(discriminate) eq_refl _)).
  intros p [= <-]. discriminate.
Defined.

(** ** Tool calls of the generation turn *)

Section ToolCallFacts.
Context {W : Type} `{Host W}.

Lemma or_null_fallback (a : option string) (s : string) :
  s <> "" -> default s (or_null a (Some s)) <> "".
Proof.
  intros Hs. destruct a as [x|]; simpl; [|assumption].
  destruct (String.eqb_spec x ""); simpl; assumption.
Qed.

(** The message that answers one tool call. *)
Lemma call_tool_reply (opts : CodeAgent.Options) (call : ToolCall) (reply : Message)
    (w w' : W) :
  CodeAgent.call_tool opts call w = (Ok reply, w') ->
  role reply = tool /\ name reply = Some (fn_name call) /\
  content reply <> "" /\ tool_calls reply = [].
Proof.
  unfold CodeAgent.call_tool. intros Hrun.
  apply bind_ok in Hrun as (toolResult & w1 & _ & [= <- _]). simpl.
  repeat split. now apply or_null_fallback.
Qed.

(** X12.  The tool calls of one assistant message are answered one by one:
    when [call_tools] completes, the message list is the old one followed by
    one [tool] message per call, in the order of the calls, each carrying the
    name of its call and a content that is not empty. *)
Theorem call_tools_appends_replies (opts : CodeAgent.Options) (calls : list ToolCall)
    (msgs msgs' : list Message) (w w' : W) :
  CodeAgent.call_tools opts calls msgs w = (Ok msgs', w') ->
  exists replies,
    msgs' = msgs ++ replies /\
    map name replies = map (fun call => Some (fn_name call)) calls /\
    Forall (fun reply => role reply = tool /\ content reply <> "") replies.
Proof.
  revert msgs w. induction calls as [|call calls IH]; intros msgs w Hrun.
  - injection Hrun as <- _. exists []. rewrite app_nil_r. repeat split. constructor.
  - simpl in Hrun. apply bind_ok in Hrun as (reply & w1 & Hcall & Hrun).
    apply call_tool_reply in Hcall as (Hrole & Hname & Hcontent & _).
    apply IH in Hrun as (replies & -> & Hnames & Hall).
    exists (reply :: replies). rewrite <- app_assoc. split; [reflexivity|].
    split; [simpl; congruence|]. constructor; auto.
Qed.

(** X13.  A call of a name that is no native tool and that no connected
    provider offers is not an exception: it is answered with the [tool]
    message "Tool error", and nothing in the world changes.  The name
    [find_and_replace], which the handler would accept, is such a name when
    no provider offers it. *)
Theorem unknown_tool_is_tool_error (opts : CodeAgent.Options) (call : ToolCall) (w : W) :
  ~ In (fn_name call) CodeAgent.NATIVE_TOOL_NAMES ->
  Forall (fun c => ~ In (fn_name call) (CodeAgent.toolNames c)) (CodeAgent.clients opts) ->
  CodeAgent.call_tool opts call w =
  (Ok {| role := tool; content := "Tool error"; tool_calls := [];
         name := Some (fn_name call) |}, w).
Proof.
  intros Hnative Hclients.
  assert (Hin : forall x l, ~ In x l -> CodeAgent.string_in x l = false).
  { intros x l Hx. unfold CodeAgent.string_in.
    apply not_true_is_false. intros (y & Hy & E%String.eqb_eq)%existsb_exists.
    now subst. }
  unfold CodeAgent.call_tool. rewrite (Hin _ _ Hnative).
  replace (find _ (CodeAgent.clients opts)) with (@None CodeAgent.McpClient); [reflexivity|].
  symmetry. induction Hclients as [|c l Hc _ IH]; [reflexivity|].
  simpl. now rewrite (Hin _ _ Hc).
Qed.

(** X14.  When a failed pass has stored [null] as the error log (both
    outputs of [spawnSync] are [null] for a child that could not be started),
    the next pass throws a [TypeError] on [errorLog.slice] before it has
    asked the backend anything: the loop ends by that exception, in the
    world the failed pass left. *)
Theorem null_errorLog_ends_the_loop (passes rounds : nat) (opts : CodeAgent.Options)
    (currentTask : string) (st st' : CodeAgent.LoopState) (w w' : W) :
  CodeAgent.outer_iteration rounds opts currentTask st w = (Ok (Again Failed st'), w') ->
  CodeAgent.errorLog st' = None ->
  CodeAgent.control_loop (S (S passes)) rounds opts currentTask st w =
  (Throw "Cannot read properties of null (reading 'slice')", w').
Proof.
  intros Hpass Hnull.
  change (CodeAgent.control_loop (S (S passes)) rounds opts currentTask st w)
    with (bind (CodeAgent.outer_iteration rounds opts currentTask st)
            (fun step =>
               match step with
               | Break by_ st1 => ret (by_, st1)
               | Again _ st1 => CodeAgent.control_loop (S passes) rounds opts currentTask st1
               end) w).
  rewrite (bind_step _ _ _ _ _ Hpass).
  simpl. unfold CodeAgent.outer_iteration, CodeAgent.summarize, bind.
  now rewrite Hnull.
Qed.

End ToolCallFacts.

Lemma call_tools_appends_replies_witness :
  exists replies,
    [CodeAgent.says user "go"] ++
    [ {| role := tool; content := "old"; tool_calls := []; name := Some "read_file" |};
      {| role := tool; content := "Tool error"; tool_calls := []; name := Some "fly" |} ] =
    [CodeAgent.says user "go"] ++ replies /\
    map name replies =
    map (fun call => Some (fn_name call))
      [ {| fn_name := "read_file"; fn_arguments := {[ "path" := Js.JString "x.txt" ]} |};
        {| fn_name := "fly"; fn_arguments := ∅ |} ] /\
    Forall (fun reply => role reply = tool /\ content reply <> "") replies.
Proof.
  exact (call_tools_appends_replies Demo.options
           [ {| fn_name := "read_file"; fn_arguments := {[ "path" := Js.JString "x.txt" ]} |};
             {| fn_name := "fly"; fn_arguments := ∅ |} ]
           [CodeAgent.says user "go"] _
           (Demo.world {[ "/work/x.txt" := "old" ]}) (Demo.world {[ "/work/x.txt" := "old" ]})
           eq_refl).
Defined.

Lemma unknown_tool_is_tool_error_witness :
  CodeAgent.call_tool Demo.options {| fn_name := "find_and_replace"; fn_arguments := ∅ |}
    (Demo.world ∅) =
  (Ok {| role := tool; content := "Tool error"; tool_calls := [];
         name := Some "find_and_replace" |}, Demo.world ∅).
Proof.
  apply (unknown_tool_is_tool_error Demo.options
           {| fn_name := "find_and_replace"; fn_arguments := ∅ |} (Demo.world ∅)).
  - simpl. intros [E|[E|[E|[E|[]]]]]; discriminate.
  - constructor.
Defined.

Lemma null_errorLog_ends_the_loop_witness :
  CodeAgent.control_loop 2 3 Demo.options "say hello" Demo.fresh
    (Demo.scripted ["Nothing yet."; "console.log('hello')"] [Demo2.unstartable]) =
  (Throw "Cannot read properties of null (reading 'slice')",
   {| files := ∅; backend := []; procs := []; clock := 1700000000001%Z |}).
Proof.
  exact (null_errorLog_ends_the_loop 0 3 Demo.options "say hello" Demo.fresh
           {| CodeAgent.progressLog := ""; CodeAgent.errorLog := None;
              CodeAgent.projectStateSummary := "Nothing yet." |}
           (Demo.scripted ["Nothing yet."; "console.log('hello')"] [Demo2.unstartable])
           {| files := ∅; backend := []; procs := []; clock := 1700000000001%Z |}
           eq_refl eq_refl).
Defined.

(** ** The prompts and the router's short cut *)

Lemma length_nl : String.length nl = 1.
Proof. reflexivity. Qed.

(** X15.  The summarize prompt is 44 code units of fixed text, the two tails
    and the previous summary: for a context length of 6 or more it is at most
    [44 + 2 * sliceLen] code units longer than the summary it is to update. *)
Theorem summarizePrompt_length (opts : CodeAgent.Options) (st : CodeAgent.LoopState)
    (e : string) :
  (6 <= CodeAgent.contextLength opts)%Z ->
  (Z.of_nat (String.length
     (CodeAgent.summarizePrompt opts st
        (Js.slice e (- CodeAgent.sliceLen (CodeAgent.contextLength opts)))))
   <= 44 + 2 * CodeAgent.sliceLen (CodeAgent.contextLength opts)
      + Z.of_nat (String.length (CodeAgent.projectStateSummary st)))%Z.
Proof.
  intros Hctx.
  assert (Hlen : (0 < CodeAgent.sliceLen (CodeAgent.contextLength opts))%Z).
  { unfold CodeAgent.sliceLen. apply Z.div_str_pos. lia. }
  pose proof (length_slice_tail (CodeAgent.progressLog st) _ Hlen) as H1.
  pose proof (length_slice_tail e _ Hlen) as H2.
  unfold CodeAgent.summarizePrompt. rewrite !length_append, length_nl.
  cbn [String.length]. lia.
Qed.

Lemma summarizePrompt_length_witness :
  (Z.of_nat (String.length
     (CodeAgent.summarizePrompt Demo.options Demo.long_progress
        (Js.slice "boom" (- CodeAgent.sliceLen 8192))))
   <= 44 + 2 * CodeAgent.sliceLen 8192
      + Z.of_nat (String.length (CodeAgent.projectStateSummary Demo.long_progress)))%Z.
Proof.
  apply (summarizePrompt_length Demo.options Demo.long_progress "boom").
  vm_compute. discriminate.
Defined.

(** X16.  A task that the router does not classify as ACTION gets its chat
    reply and nothing else: [run_task] returns no loop state, uses up the
    router's answer and one more, and leaves files, processes and clock as
    they were. *)
Theorem chat_task_runs_nothing (passes rounds : nat) (opts : CodeAgent.Options)
    (currentTask progress summary : string) (w w' : Sim) (routeResponse : Message)
    (later : list (Res Message)) (r : Res (option (Exit * CodeAgent.LoopState))) :
  backend w = Ok routeResponse :: later ->
  Js.includes (content routeResponse) "ACTION" = false ->
  CodeAgent.run_task passes rounds opts currentTask progress summary w = (r, w') ->
  (forall final, r <> Ok (Some final)) /\
  files w' = files w /\ procs w' = procs w /\ clock w' = clock w /\
  backend w' = tl later.
Proof.
  intros Hbackend Hchat.
  unfold CodeAgent.run_task, CodeAgent.route, bind. simpl chat.
  unfold SimHost.sim_chat. rewrite Hbackend. cbn [ret backend files procs clock].
  unfold CodeAgent.classify, CodeAgent.isAction. rewrite Hchat.
  destruct later as [|[chatResponse|message|] later]; intros [= <- <-];
    repeat split; discriminate.
Qed.

Lemma chat_task_runs_nothing_witness :
  (forall final, Ok (@None (Exit * CodeAgent.LoopState)) <> Ok (Some final)) /\
  files (Demo.scripted [] []) = files (Demo.scripted ["CHAT"; "Hello!"] []) /\
  procs (Demo.scripted [] []) = procs (Demo.scripted ["CHAT"; "Hello!"] []) /\
  clock (Demo.scripted [] []) = clock (Demo.scripted ["CHAT"; "Hello!"] []) /\
  backend (Demo.scripted [] []) = tl [Ok (CodeAgent.says assistant "Hello!")].
Proof.
  exact (chat_task_runs_nothing 5 5 Demo.options "hi" "" "No active task."
           (Demo.scripted ["CHAT"; "Hello!"] []) (Demo.scripted [] [])
           (CodeAgent.says assistant "CHAT") [Ok (CodeAgent.says assistant "Hello!")]
           (Ok None) eq_refl eq_refl eq_refl).
Defined.

(** ** The sandbox of the prototype *)

(** X17.  The prototype removes [temp.js] without looking whether it is
    still there: when the segment's child has deleted the file and exited,
    [unlinkSync] throws and [executeSegment] passes the exception on, with no
    result for the segment. *)
Theorem prototype_throws_when_temp_file_is_gone (segment : string) (w : Sim) (d : Z) :
  duration (hd SimHost.quiet (procs w)) = Some d ->
  effect (hd SimHost.quiet (procs w)) (<[(@in_dirname Sim _ "temp.js") := segment]> (files w))
    !! @in_dirname Sim _ "temp.js" = None ->
  exists w',
    Index.executeSegment segment w = (Throw (SimHost.ENOENT (@in_dirname Sim _ "temp.js")), w') /\
    files w' !! @in_dirname Sim _ "temp.js" = None.
Proof.
  intros Hd Hgone. unfold Index.executeSegment.
  assert (Hname : SimHost.writable w (@in_dirname Sim _ "temp.js") = true).
  { unfold SimHost.writable. now rewrite orb_true_r. }
  rewrite (bind_step _ _ _ _ tt (sim_write_file w _ segment Hname)).
  unfold bind at 1. simpl spawnSync. unfold SimHost.sim_spawn.
  cbn [timeout procs files backend clock SimHost.with_files]. rewrite Hd.
  unfold bind. simpl unlinkSync. unfold SimHost.sim_unlink.
  cbn [files]. simpl in Hgone. rewrite Hgone.
  eexists. split; [reflexivity | exact Hgone].
Qed.

Lemma prototype_throws_when_temp_file_is_gone_witness :
  exists w',
    Index.executeSegment "fs.unlinkSync(__filename)" (Demo.scripted [] [Demo2.self_deleting]) =
    (Throw (SimHost.ENOENT (@in_dirname Sim _ "temp.js")), w') /\
    files w' !! @in_dirname Sim _ "temp.js" = None.
Proof.
  exact (prototype_throws_when_temp_file_is_gone "fs.unlinkSync(__filename)"
           (Demo.scripted [] [Demo2.self_deleting]) 10 eq_refl eq_refl).
Defined.

(** X18.  When the child exits and has left [temp.js] in place, the
    prototype's [executeSegment] returns and the file is gone.  A child that
    ends with status 0 and without error is a success whose log is its
    standard output alone, whatever it wrote to its standard error; any other
    end is a failure whose log is the standard error or, if that is empty,
    the standard output. *)
Theorem prototype_executeSegment_result (segment : string) (w : Sim) (d : Z) (kept : string) :
  duration (hd SimHost.quiet (procs w)) = Some d ->
  effect (hd SimHost.quiet (procs w)) (<[(@in_dirname Sim _ "temp.js") := segment]> (files w))
    !! @in_dirname Sim _ "temp.js" = Some kept ->
  exists w',
    Index.executeSegment segment w =
    (Ok (if bool_decide (error (returns (hd SimHost.quiet (procs w))) = None) &&
            bool_decide (status (returns (hd SimHost.quiet (procs w))) = Some 0%Z)
         then {| Index.exec_error := false;
                 Index.log := stdout (returns (hd SimHost.quiet (procs w))) |}
         else {| Index.exec_error := true;
                 Index.log := or_null (stderr (returns (hd SimHost.quiet (procs w))))
                                      (stdout (returns (hd SimHost.quiet (procs w)))) |}),
     w') /\
    files w' !! @in_dirname Sim _ "temp.js" = None.
Proof.
  intros Hd Hkept. unfold Index.executeSegment.
  assert (Hname : SimHost.writable w (@in_dirname Sim _ "temp.js") = true).
  { unfold SimHost.writable. now rewrite orb_true_r. }
  rewrite (bind_step _ _ _ _ tt (sim_write_file w _ segment Hname)).
  unfold bind at 1. simpl spawnSync. unfold SimHost.sim_spawn.
  cbn [timeout procs files backend clock SimHost.with_files]. rewrite Hd.
  unfold bind. simpl unlinkSync. unfold SimHost.sim_unlink.
  cbn [files]. simpl in Hkept. rewrite Hkept.
  set (child := returns (hd SimHost.quiet (procs w))).
  destruct (error child) as [code|], (status child) as [[|q|q]|];
    eexists; (split; [reflexivity|]); apply lookup_delete_eq.
Qed.

Lemma prototype_executeSegment_result_witness :
  exists w',
    Index.executeSegment "console.log('out')" (Demo.scripted [] [Demo2.chatty]) =
    (Ok {| Index.exec_error := false; Index.log := Some "out" |}, w') /\
    files w' !! @in_dirname Sim _ "temp.js" = None.
Proof.
  exact (prototype_executeSegment_result "console.log('out')"
           (Demo.scripted [] [Demo2.chatty]) 10 "console.log('out')" eq_refl eq_refl).
Defined.


(** ** Loading the tool providers *)

Section McpFacts.
Context {W : Type}.
Variable listTools : option string -> Eff W (list ToolDefinition).

Lemma registry_push (tools serverTools : list ToolDefinition)
    (clients : list CodeAgent.McpClient) :
  Mcp.registry tools clients ->
  Mcp.registry (tools ++ serverTools)
    (clients ++ [ {| CodeAgent.client := length clients;
                     CodeAgent.toolNames := map td_name serverTools |} ]).
Proof.
  intros [Hnames Hnumbers]. split.
  - rewrite !map_app, concat_app, Hnames. cbn [map concat CodeAgent.toolNames].
    now rewrite app_nil_r, <- app_assoc.
  - rewrite map_app, length_app, Hnumbers. simpl.
    now rewrite Nat.add_1_r, seq_S.
Qed.

Lemma setupMCP_from_registry (serverPaths : list (option string)) :
  forall tools clients tools' clients' (w w' : W),
    Mcp.registry tools clients ->
    Mcp.setupMCP_from listTools serverPaths tools clients w = (Ok (tools', clients'), w') ->
    Mcp.registry tools' clients' /\
    length clients' <= length clients + length serverPaths.
Proof.
  induction serverPaths as [|serverPath rest IH]; intros tools clients tools' clients' w w' Hinv.
  - intros [= <- <- _]. split; [assumption | simpl; lia].
  - cbn [Mcp.setupMCP_from]. unfold bind at 1, try_catch, bind at 1.
    destruct (listTools serverPath w) as [[serverTools|message|] w1]; cbn [ret].
    + intros Hrun. apply IH in Hrun as [Hinv' Hlen]; [|now apply registry_push].
      split; [assumption|]. rewrite length_app in Hlen. simpl in *. lia.
    + intros Hrun. apply IH in Hrun as [Hinv' Hlen]; [|assumption].
      split; [assumption|]. simpl. lia.
    + discriminate.
Qed.

Lemma registry_start : Mcp.registry CodeAgent.nativeToolDefinitions [].
Proof. split; reflexivity. Qed.

Lemma string_in_In (x : string) (l : list string) :
  CodeAgent.string_in x l = true <-> In x l.
Proof.
  unfold CodeAgent.string_in. rewrite existsb_exists. split.
  - intros (y & Hy & E). apply String.eqb_eq in E. now subst.
  - intros Hx. exists x. split; [assumption | apply String.eqb_refl].
Qed.

(** X19.  When [setupMCP] returns, the names of [tools] are the four native
    names followed by the tool names of each client, in the order of
    [clients]; the clients are numbered by their place, and there are no
    more of them than there are provider paths. *)
Theorem setupMCP_registry (serverPaths : list (option string))
    (tools : list ToolDefinition) (clients : list CodeAgent.McpClient) (w w' : W) :
  Mcp.setupMCP listTools serverPaths w = (Ok (tools, clients), w') ->
  map td_name tools =
  CodeAgent.NATIVE_TOOL_NAMES ++ concat (map CodeAgent.toolNames clients) /\
  map CodeAgent.client clients = seq 0 (length clients) /\
  length clients <= length serverPaths.
Proof.
  intros Hrun.
  apply (setupMCP_from_registry _ _ _ _ _ _ _ registry_start) in Hrun as [[Hn Hc] Hlen].
  auto.
Qed.

(** X20.  Every tool that [setupMCP] puts into [tools] has a handler in the
    inner tool loop of [main]: its name is a native one, or the look-up among
    the clients finds a client that lists it. *)
Theorem advertised_tools_are_handled (serverPaths : list (option string))
    (tools : list ToolDefinition) (clients : list CodeAgent.McpClient) (w w' : W)
    (t : ToolDefinition) :
  Mcp.setupMCP listTools serverPaths w = (Ok (tools, clients), w') ->
  In t tools ->
  CodeAgent.string_in (td_name t) CodeAgent.NATIVE_TOOL_NAMES = true \/
  exists target,
    find (fun c => CodeAgent.string_in (td_name t) (CodeAgent.toolNames c)) clients =
    Some target /\
    In (td_name t) (CodeAgent.toolNames target).
Proof.
  intros Hrun Ht.
  apply (setupMCP_from_registry _ _ _ _ _ _ _ registry_start) in Hrun as [[Hn _] _].
  apply (in_map td_name) in Ht. rewrite Hn in Ht.
  apply in_app_or in Ht as [Hnative|Hclient].
  - left. now apply string_in_In.
  - right. apply in_concat in Hclient as (names & Hnames & Hin).
    apply in_map_iff in Hnames as (c & <- & Hc).
    destruct (find (fun c => CodeAgent.string_in (td_name t) (CodeAgent.toolNames c)) clients)
      as [target|] eqn:E.
    + exists target. split; [reflexivity|].
      apply find_some in E as [_ E]. now apply string_in_In.
    + apply (find_none _ _ E) in Hc. apply string_in_In in Hin. congruence.
Qed.

Lemma setupMCP_from_never_throws (serverPaths : list (option string)) :
  forall tools clients (w : W) message,
    fst (Mcp.setupMCP_from listTools serverPaths tools clients w) <> Throw message.
Proof.
  induction serverPaths as [|serverPath rest IH]; intros tools clients w message.
  - discriminate.
  - cbn [Mcp.setupMCP_from]. unfold bind at 1, try_catch, bind at 1.
    destruct (listTools serverPath w) as [[serverTools|e|] w1]; cbn [ret].
    + apply IH.
    + apply IH.
    + discriminate.
Qed.

(** X21.  [setupMCP] never throws, whatever the providers do: the [try]
    around each provider catches its failure to connect or to list its
    tools. *)
Theorem setupMCP_never_throws (serverPaths : list (option string)) (w : W)
    (message : string) :
  fst (Mcp.setupMCP listTools serverPaths w) <> Throw message.
Proof. apply setupMCP_from_never_throws. Qed.

End McpFacts.

Lemma setupMCP_registry_witness :
  map td_name (CodeAgent.nativeToolDefinitions ++ [Demo3.git_status]) =
  CodeAgent.NATIVE_TOOL_NAMES ++
  concat (map CodeAgent.toolNames
            [ {| CodeAgent.client := 0; CodeAgent.toolNames := ["git_status"] |} ]) /\
  map CodeAgent.client [ {| CodeAgent.client := 0; CodeAgent.toolNames := ["git_status"] |} ] =
  seq 0 1 /\
  1 <= 3.
Proof.
  exact (setupMCP_registry Demo3.listTools [Some "fs-server"; Some "git-server"; None]
           (CodeAgent.nativeToolDefinitions ++ [Demo3.git_status])
           [ {| CodeAgent.client := 0; CodeAgent.toolNames := ["git_status"] |} ]
           (Demo.world ∅) (Demo.world ∅) eq_refl).
Defined.

Lemma advertised_tools_are_handled_witness :
  CodeAgent.string_in "git_status" CodeAgent.NATIVE_TOOL_NAMES = true \/
  exists target,
    find (fun c => CodeAgent.string_in "git_status" (CodeAgent.toolNames c))
      [ {| CodeAgent.client := 0; CodeAgent.toolNames := ["git_status"] |} ] = Some target /\
    In "git_status" (CodeAgent.toolNames target).
Proof.
  exact (advertised_tools_are_handled Demo3.listTools
           [Some "fs-server"; Some "git-server"; None]
           (CodeAgent.nativeToolDefinitions ++ [Demo3.git_status])
           [ {| CodeAgent.client := 0; CodeAgent.toolNames := ["git_status"] |} ]
           (Demo.world ∅) (Demo.world ∅) Demo3.git_status eq_refl
           (or_intror (or_intror (or_intror (or_intror (or_introl eq_refl)))))).
Defined.

(** ** The session *)

Lemma lower_white (c : ascii) : Js.is_white c = true -> Js.lower c = c.
Proof.
  destruct c as [[] [] [] [] [] [] [] []]; intros Hc; vm_compute in Hc;
    try discriminate; reflexivity.
Qed.

Lemma white_is_no_exit (c : ascii) (s : string) :
  Js.is_white c = true -> Session.is_exit (String c s) = false.
Proof.
  destruct c as [[] [] [] [] [] [] [] []]; intros Hc; vm_compute in Hc;
    try discriminate; reflexivity.
Qed.

Lemma trim_empty_head (c : ascii) (s : string) :
  Js.trim (String c s) = "" -> Js.is_white c = true.
Proof.
  unfold Js.trim. cbn [Js.trimStart].
  destruct (Js.is_white c) eqn:Hc; [reflexivity|].
  cbn [Js.trimEnd]. rewrite Hc. now destruct (Js.trimEnd s).
Qed.

Lemma blank_is_no_exit (line : string) : Js.trim line = "" -> Session.is_exit line = false.
Proof.
  destruct line as [|c s]; [reflexivity|].
  intros Hblank. apply white_is_no_exit. now apply trim_empty_head in Hblank.
Qed.

Section SessionFacts.
Context {W : Type} `{Host W}.

(** X22.  At the prompt, blank lines are passed over, and [exit] or [quit]
    in any letter case ends the session: the accumulators are as they were,
    nothing outside has been touched, and no line behind is read. *)
Theorem repl_ends_at_exit (passes rounds : nat) (opts : CodeAgent.Options)
    (blanks : list string) (word : string) (rest : list string) (logs : Session.Logs)
    (w : W) :
  Forall (fun line => Js.trim line = "") blanks ->
  Js.toLowerCase word = "exit" \/ Js.toLowerCase word = "quit" ->
  Session.repl passes rounds opts (blanks ++ word :: rest) logs w = (Ok (logs, rest), w).
Proof.
  intros Hblanks Hword.
  induction Hblanks as [|line blanks Hline _ IH]; simpl.
  - assert (Session.is_exit word = true) as ->; [|reflexivity].
    unfold Session.is_exit. now destruct Hword as [-> | ->].
  - rewrite (blank_is_no_exit line Hline), Hline. exact IH.
Qed.

(** X23.  When the first word behind the flags is no file, the task is the
    words joined by blanks, and the agent is in REPL mode exactly when there
    is no word at all or the one word is empty. *)
Theorem no_task_means_repl (args : list string) (w : W) :
  (forall first, head args = Some first -> existsSync first w = false) ->
  exists input,
    Session.initialInput args w = (Ok input, w) /\
    input = Js.join args " " /\
    (Session.isReplMode input = true <-> args = [] \/ args = [""]).
Proof.
  intros Hfile. exists (Js.join args " "). split; [|split; [reflexivity|]].
  - destruct args as [|first rest]; [reflexivity|].
    unfold Session.initialInput, bind, exists_file.
    now rewrite (Hfile first eq_refl).
  - unfold Session.isReplMode. simpl Js.truthy. rewrite negb_involutive, String.eqb_eq.
    destruct args as [|a [|b rest]]; simpl.
    + intuition.
    + split; [intros ->; auto | intros [?|[= ->]]; [discriminate | reflexivity]].
    + split; [|intros [?|?]; discriminate].
      destruct a; unfold_append; discriminate.
Qed.

End SessionFacts.

Lemma repl_ends_at_exit_witness :
  Session.repl 5 5 Demo.options (["  "; ""] ++ "Quit" :: ["ls"; "exit"]) Session.start
    (Demo.scripted ["ACTION"] []) =
  (Ok (Session.start, ["ls"; "exit"]), Demo.scripted ["ACTION"] []).
Proof.
  apply (repl_ends_at_exit 5 5 Demo.options ["  "; ""] "Quit" ["ls"; "exit"]).
  - repeat constructor.
  - right. reflexivity.
Defined.

Lemma no_task_means_repl_witness :
  exists input,
    Session.initialInput [""] (Demo.world ∅) = (Ok input, Demo.world ∅) /\
    input = Js.join [""] " " /\
    (Session.isReplMode input = true <-> [""] = [] \/ [""] = [""]).
Proof.
  apply (no_task_means_repl [""] (Demo.world ∅)).
  intros first [= <-]. reflexivity.
Defined.

(** An empty task file puts the agent in REPL mode as well. *)
Example empty_task_file_means_repl :
  exists input,
    Session.initialInput ["task.md"; "now"] (Demo.world {[ "task.md" := "" ]}) =
    (Ok input, Demo.world {[ "task.md" := "" ]}) /\
    Session.isReplMode input = true.
Proof. exists "". split; reflexivity. Qed.

(** A line with a blank behind [exit] is no exit command; it is a task. *)
Example exit_with_blank_is_a_task :
  Session.is_exit "exit " = false /\ Js.trim "exit " <> "".
Proof. split; [reflexivity | discriminate]. Qed.

(** X24.  A line at the prompt that the router does not classify as ACTION
    costs two answers of the backend and changes nothing else: the session
    goes on with the next line and the accumulators it had. *)
Theorem repl_chat_turn (passes rounds : nat) (opts : CodeAgent.Options)
    (line : string) (rest : list string) (logs : Session.Logs) (w : Sim)
    (routeResponse chatResponse : Message) (later : list (Res Message)) :
  Session.is_exit line = false ->
  Js.trim line <> "" ->
  backend w = Ok routeResponse :: Ok chatResponse :: later ->
  Js.includes (content routeResponse) "ACTION" = false ->
  Session.repl passes rounds opts (line :: rest) logs w =
  Session.repl passes rounds opts rest logs
    {| files := files w; backend := later; procs := procs w; clock := clock w |}.
Proof.
  intros Hexit Hline Hbackend Hchat.
  cbn [Session.repl]. rewrite Hexit.
  apply String.eqb_neq in Hline. rewrite Hline.
  unfold bind at 1.
  unfold CodeAgent.run_task, CodeAgent.route, bind. simpl chat.
  unfold SimHost.sim_chat. rewrite Hbackend. cbn [ret backend files procs clock].
  unfold CodeAgent.classify, CodeAgent.isAction. rewrite Hchat.
  reflexivity.
Qed.

Lemma repl_chat_turn_witness :
  Session.repl 5 5 Demo.options ("hello" :: ["exit"]) Session.start
    (Demo.scripted ["CHAT"; "Hi there!"] []) =
  Session.repl 5 5 Demo.options ["exit"] Session.start
    {| files := files (Demo.scripted ["CHAT"; "Hi there!"] []);
       backend := [];
       procs := procs (Demo.scripted ["CHAT"; "Hi there!"] []);
       clock := clock (Demo.scripted ["CHAT"; "Hi there!"] []) |}.
Proof.
  apply (repl_chat_turn 5 5 Demo.options "hello" ["exit"] Session.start
           (Demo.scripted ["CHAT"; "Hi there!"] [])
           (CodeAgent.says assistant "CHAT") (CodeAgent.says assistant "Hi there!") []).
  - reflexivity.
  - discriminate.
  - reflexivity.
  - reflexivity.
Defined.
